(** * promoted-athena-query: the query lifecycle of [AthenaQuery]

    A shallow embedding of [src/index.tsx]: submission of a query,
    polling for a terminal state, paginated retrieval of the results and
    the conversion of Athena's positional rows into records keyed by the
    header row. *)

From Stdlib Require Import ZArith.
From stdpp Require Import base option list strings gmap pretty.

Local Open Scope Z_scope.
Local Open Scope nat_scope.

(** ** Wire data of [@aws-sdk/client-athena]

    Only the fields [index.tsx] reads are kept.  Every optional field
    ([?:] in the SDK's declarations) is an [option]. *)

Record Datum := { VarCharValue : option string }.

Record Row := { Data : option (list Datum) }.

Record ResultSet := { Rows : option (list Row) }.

Record ResponseMetadata := { httpStatusCode : option Z }.

Record StartQueryExecutionCommandOutput := {
  start_QueryExecutionId : option string
}.

Record QueryExecutionStatus := { State : option string }.

Record QueryExecution := { Status : option QueryExecutionStatus }.

Record GetQueryExecutionCommandOutput := {
  output_QueryExecution : option QueryExecution
}.

Record GetQueryResultsCommandOutput := {
  metadata : ResponseMetadata;          (* response['$metadata'] *)
  output_ResultSet : option ResultSet;
  output_NextToken : option string
}.

Record GetQueryResultsInput := {
  input_QueryExecutionId : option string;
  input_NextToken : option string
}.

(** The three commands the runner sends, with their inputs. *)
Inductive Command :=
| StartQueryExecutionCommand (QueryString : string)
| GetQueryExecutionCommand (QueryExecutionId : option string)
| GetQueryResultsCommand (input : GetQueryResultsInput).

Definition Output (command : Command) : Type :=
  match command with
  | StartQueryExecutionCommand _ => StartQueryExecutionCommandOutput
  | GetQueryExecutionCommand _ => GetQueryExecutionCommandOutput
  | GetQueryResultsCommand _ => GetQueryResultsCommandOutput
  end.

(** A converted row: the object [result] of [fromRowsToJsonValues], a
    map from field name to [VarCharValue] (which may be [undefined]; the
    key is present all the same).  Field names are taken as ordinary
    property keys. *)
Abbreviation JsonValue := (gmap string (option string)).

(** ** Thrown values

    One constructor per [throw] of [index.tsx], carrying what the message
    interpolates; [ExpectedMore] is what the scripted client throws when
    a queue of canned responses is exhausted, and [Rejected] is a
    rejection of the caller's batch processor. *)
Inductive Thrown :=
| CanOnlyBeUsedOnce            (* Error('AthenaQuery can only be used once.') *)
| ExpectedAQueryExecutionId    (* Error('Expected a QueryExecutionId') *)
| ExpectedIdAfterStartQuery (startResponse : StartQueryExecutionCommandOutput)
| UnsupportedResponseState (responseState : option string)
| GetQueryResultsFailed (response : GetQueryResultsCommandOutput)
| HeaderRowIsNotLongEnough     (* throw `Header row is not long enough.` *)
| ExpectedMore (queue : string)
| Rejected (reason : string).

(** [`${x}`] for [x : string | undefined]. *)
Definition template (x : option string) : string :=
  match x with
  | Some s => s
  | None => "undefined"
  end.

(** The message of the error thrown by [waitForSuccessfulResult]; the
    response is an object, which a template literal renders as
    [[object Object]]. *)
Definition unsupportedResponseStateMessage (responseState : option string) : string :=
  "Unsupported response state, " +:+ template responseState
    +:+ ", stateResponse=[object Object]".

(** ** Free functions of [index.tsx] *)

(** [row.Data.forEach((data, index) => ...)] from position [index] on,
    with [result] the object built so far.  [!fieldName] holds when the
    index is out of range ([undefined]) and when the name is the empty
    string. *)
Fixpoint forEachData (fieldNames : list string) (index : nat)
    (data : list Datum) (result : JsonValue) : Thrown + JsonValue :=
  match data with
  | [] => inr result
  | d :: data' =>
      match fieldNames !! index with
      | None => inl HeaderRowIsNotLongEnough
      | Some fieldName =>
          if decide (fieldName = EmptyString) then inl HeaderRowIsNotLongEnough
          else forEachData fieldNames (S index) data'
                 (<[fieldName := VarCharValue d]> result)
      end
  end.

(** The callback of [rows.map]: [row?.Data?.forEach] does nothing when
    the row has no [Data]. *)
Definition rowToJsonValue (fieldNames : list string) (row : Row) : Thrown + JsonValue :=
  match Data row with
  | None => inr ∅
  | Some data => forEachData fieldNames 0 data ∅
  end.

Fixpoint fromRowsToJsonValues (rows : list Row) (fieldNames : list string)
    : Thrown + list JsonValue :=
  match rows with
  | [] => inr []
  | row :: rows' =>
      match rowToJsonValue fieldNames row with
      | inl e => inl e
      | inr result =>
          match fromRowsToJsonValues rows' fieldNames with
          | inl e => inl e
          | inr results => inr (result :: results)
          end
      end
  end.

Definition getState (response : GetQueryExecutionCommandOutput) : option string :=
  (output_QueryExecution response ≫= Status) ≫= State.

Definition isTerminalState (state : option string) : bool :=
  bool_decide (state ≠ Some "QUEUED") && bool_decide (state ≠ Some "RUNNING").

(** The header expression of [getResults] (lines 156-159):
    [rows?.[0]?.Data?.map(...)], or [[]] when that is [undefined]. *)
Definition headerFieldName (index : nat) (data : Datum) : string :=
  match VarCharValue data with
  | None => "col" +:+ pretty index
  | Some v => v
  end.

Definition headerFieldNames (rows : option (list Row)) : list string :=
  match (rows ≫= (λ rs, rs !! 0)) ≫= Data with
  | Some data => imap headerFieldName data
  | None => []
  end.


(** ** The runner and its collaborators *)

Section Runner.

(** The state the caller's batch processor closes over (in the tests,
    the array [results]). *)
Context {B : Type}.

(** The service collaborator.  The AWS client is outside the repository;
    it is modelled as the scripted client of the tests: each kind of
    command is answered from its own queue of canned responses, in
    order, and [send] throws when that queue is exhausted. *)
Record AthenaClient := {
  expectedStartQueries : list StartQueryExecutionCommandOutput;
  expectedWaitForSuccessfulResults : list GetQueryExecutionCommandOutput;
  expectedGetResults : list GetQueryResultsCommandOutput
}.

(** [(rows: any[]) => Promise<void>]: the promise resolves ([None]) or
    rejects ([Some e]); the processor may update its own state. *)
Definition BatchProcessor : Type := list JsonValue → B → option Thrown * B.

Record AthenaQuery := {
  athenaClient : AthenaClient;
  query : string;
  batchProcessor : BatchProcessor;
  QueryExecutionId : option string;
  sleepMs : Z
}.

Record GetResultOutput := {
  result_Data : list JsonValue;
  result_NextToken : option string;
  result_fieldNames : list string
}.

(** What an observer sees of a run, in order of occurrence. *)
Inductive Event :=
| Send (command : Command)
| Sleep (ms : Z)
| BatchProcessorCall (rows : list JsonValue).

(** The state of a run: the instance, the state of the caller's
    consumer, and the trace of what has been observed so far (the trace
    is not a variable of the program; it is kept to state what the
    program did, and in which order). *)
Record Heap := {
  this : AthenaQuery;
  consumer : B;
  trace : list Event
}.

(** [new AthenaQuery(input)]. *)
Definition newAthenaQuery (client : AthenaClient) (q : string)
    (processor : BatchProcessor) (ms : option Z) : AthenaQuery :=
  {| athenaClient := client;
     query := q;
     batchProcessor := processor;
     QueryExecutionId := None;
     sleepMs := match ms with Some v => v | None => 500%Z end |}.

(** *** A state and exception monad for the async methods

    An [await]ed call is a call in sequence; a rejected promise is a
    thrown value.  [OutOfFuel] is not a JavaScript outcome: it marks a
    loop cut short by the bound on its iterations. *)
Inductive Outcome (A : Type) :=
| Returned (a : A)
| Threw (e : Thrown)
| OutOfFuel.
Global Arguments Returned {A} a.
Global Arguments Threw {A} e.
Global Arguments OutOfFuel {A}.

Definition M (A : Type) : Type := Heap → Outcome A * Heap.

#[global] Instance M_ret : MRet M := λ A a h, (Returned a, h).

#[global] Instance M_bind : MBind M := λ A A' f m h,
  match m h with
  | (Returned a, h') => f a h'
  | (Threw e, h') => (Threw e, h')
  | (OutOfFuel, h') => (OutOfFuel, h')
  end.

Definition throw {A} (e : Thrown) : M A := λ h, (Threw e, h).

Definition outOfFuel {A} : M A := λ h, (OutOfFuel, h).

Definition getThis : M AthenaQuery := λ h, (Returned (this h), h).

Definition withClient (c : AthenaClient) (h : Heap) : Heap :=
  {| this := {| athenaClient := c;
                query := query (this h);
                batchProcessor := batchProcessor (this h);
                QueryExecutionId := QueryExecutionId (this h);
                sleepMs := sleepMs (this h) |};
     consumer := consumer h;
     trace := trace h |}.

Definition withQueryExecutionId (v : option string) (h : Heap) : Heap :=
  {| this := {| athenaClient := athenaClient (this h);
                query := query (this h);
                batchProcessor := batchProcessor (this h);
                QueryExecutionId := v;
                sleepMs := sleepMs (this h) |};
     consumer := consumer h;
     trace := trace h |}.

Definition withEvent (e : Event) (h : Heap) : Heap :=
  {| this := this h; consumer := consumer h; trace := trace h ++ [e] |}.

(** [this.QueryExecutionId = v]. *)
Definition setQueryExecutionId (v : option string) : M unit :=
  λ h, (Returned (), withQueryExecutionId v h).

Definition emit (e : Event) : M unit := λ h, (Returned (), withEvent e h).

(** [queue.shift()] behind the emptiness check of the scripted client. *)
Definition shift {A} (name : string) (get : AthenaClient → list A)
    (set : list A → AthenaClient → AthenaClient) : M A :=
  λ h, match get (athenaClient (this h)) with
       | [] => (Threw (ExpectedMore name), h)
       | x :: q => (Returned x, withClient (set q (athenaClient (this h))) h)
       end.

Definition setStartQueries q (c : AthenaClient) : AthenaClient :=
  {| expectedStartQueries := q;
     expectedWaitForSuccessfulResults := expectedWaitForSuccessfulResults c;
     expectedGetResults := expectedGetResults c |}.

Definition setWaitForSuccessfulResults q (c : AthenaClient) : AthenaClient :=
  {| expectedStartQueries := expectedStartQueries c;
     expectedWaitForSuccessfulResults := q;
     expectedGetResults := expectedGetResults c |}.

Definition setGetResults q (c : AthenaClient) : AthenaClient :=
  {| expectedStartQueries := expectedStartQueries c;
     expectedWaitForSuccessfulResults := expectedWaitForSuccessfulResults c;
     expectedGetResults := q |}.

(** [this.athenaClient.send(command)]: the call is observed, then
    answered from the queue of its kind. *)
Definition send (command : Command) : M (Output command) :=
  emit (Send command);;
  match command return M (Output command) with
  | StartQueryExecutionCommand _ =>
      shift "expectedStartQueries" expectedStartQueries setStartQueries
  | GetQueryExecutionCommand _ =>
      shift "expectedWaitForSuccessfulResults"
        expectedWaitForSuccessfulResults setWaitForSuccessfulResults
  | GetQueryResultsCommand _ =>
      shift "expectedGetResults" expectedGetResults setGetResults
  end.

(** [await sleep(ms)]. *)
Definition sleep (ms : Z) : M unit := emit (Sleep ms).

(** [await this.batchProcessor(rows)]. *)
Definition callBatchProcessor (rows : list JsonValue) : M unit :=
  λ h, let '(rejection, b) := batchProcessor (this h) rows (consumer h) in
       let h' := {| this := this h; consumer := b;
                    trace := trace h ++ [BatchProcessorCall rows] |} in
       match rejection with
       | Some e => (Threw e, h')
       | None => (Returned (), h')
       end.

(** A pure computation that may throw, run inside [M]. *)
Definition liftThrown {A} (r : Thrown + A) : M A :=
  match r with
  | inl e => throw e
  | inr a => mret a
  end.

(** *** Methods of [AthenaQuery] *)

Definition startQuery : M unit :=
  self ← getThis;
  startResponse ← send (StartQueryExecutionCommand (query self));
  setQueryExecutionId (start_QueryExecutionId startResponse);;
  self ← getThis;
  if decide (QueryExecutionId self = None)
  then throw (ExpectedIdAfterStartQuery startResponse)
  else mret ().

(** The [while] loop of [waitForSuccessfulResult], at most [fuel]
    iterations. *)
Fixpoint waitLoop (fuel : nat) (stateResponse : GetQueryExecutionCommandOutput)
    : M GetQueryExecutionCommandOutput :=
  if isTerminalState (getState stateResponse) then mret stateResponse
  else match fuel with
       | 0 => outOfFuel
       | S fuel' =>
           self ← getThis;
           (if decide (0 < sleepMs self)%Z then sleep (sleepMs self) else mret ());;
           stateResponse ← send (GetQueryExecutionCommand (QueryExecutionId self));
           waitLoop fuel' stateResponse
       end.

Definition waitForSuccessfulResult (fuel : nat) : M unit :=
  self ← getThis;
  stateResponse ← send (GetQueryExecutionCommand (QueryExecutionId self));
  stateResponse ← waitLoop fuel stateResponse;
  let responseState := getState stateResponse in
  if decide (responseState ≠ Some "SUCCEEDED")
  then throw (UnsupportedResponseState responseState)
  else mret ().

Definition getResults (input : GetQueryResultsInput) (isFirstQuery : bool)
    (fieldNames : list string) : M GetResultOutput :=
  response ← send (GetQueryResultsCommand input);
  if decide (httpStatusCode (metadata response) ≠ Some 200%Z)
  then throw (GetQueryResultsFailed response)
  else
    let rows := output_ResultSet response ≫= Rows in
    let fieldNames := if isFirstQuery then headerFieldNames rows else fieldNames in
    let rows := if isFirstQuery then drop 1 <$> rows else rows in
    data ← liftThrown (match rows with
                       | Some rows => fromRowsToJsonValues rows fieldNames
                       | None => inr []
                       end);
    mret {| result_Data := data;
            result_NextToken := output_NextToken response;
            result_fieldNames := fieldNames |}.

(** The [while (NextToken !== undefined)] loop of [getResultsInBatches],
    at most [fuel] iterations. *)
Fixpoint batchLoop (fuel : nat) (fieldNames : list string)
    (NextToken : option string) : M unit :=
  match NextToken with
  | None => mret ()
  | Some token =>
      match fuel with
      | 0 => outOfFuel
      | S fuel' =>
          self ← getThis;
          pageResults ← getResults
            {| input_QueryExecutionId := QueryExecutionId self;
               input_NextToken := Some token |} false fieldNames;
          callBatchProcessor (result_Data pageResults);;
          batchLoop fuel' fieldNames (result_NextToken pageResults)
      end
  end.

Definition getResultsInBatches (fuel : nat) : M unit :=
  self ← getThis;
  results ← getResults
    {| input_QueryExecutionId := QueryExecutionId self;
       input_NextToken := None |} true [];
  callBatchProcessor (result_Data results);;
  batchLoop fuel (result_fieldNames results) (result_NextToken results).

Definition processQuery (fuel : nat) : M unit :=
  self ← getThis;
  if decide (QueryExecutionId self ≠ None) then throw CanOnlyBeUsedOnce
  else
    startQuery;;
    self ← getThis;
    if decide (QueryExecutionId self = None) then throw ExpectedAQueryExecutionId
    else
      waitForSuccessfulResult fuel;;
      getResultsInBatches fuel.

End Runner.

Global Arguments AthenaQuery : clear implicits.
Global Arguments Heap : clear implicits.
Global Arguments BatchProcessor : clear implicits.
Global Arguments M : clear implicits.

(** ** Vocabulary of the statements

    None of the following is code of the repository: these definitions
    name the heaps, traces and batches the theorems speak about. *)

Section Vocabulary.

Context {B : Type}.

(** The heap [h] with a new client, handle and consumer state, and with
    [events] appended to its trace; everything else is as in [h]. *)
Definition updated (h : Heap B) (client : AthenaClient) (id : option string)
    (b : B) (events : list Event) : Heap B :=
  {| this := {| athenaClient := client;
                query := query (this h);
                batchProcessor := batchProcessor (this h);
                QueryExecutionId := id;
                sleepMs := sleepMs (this h) |};
     consumer := b;
     trace := trace h ++ events |}.

(** The number of positional values of a row; a row without [Data] has
    none. *)
Definition rowLength (row : Row) : nat := length (default [] (Data row)).

(** A state that keeps the polling loop going. *)
Definition pendingState (response : GetQueryExecutionCommandOutput) : Prop :=
  getState response = Some "QUEUED" ∨ getState response = Some "RUNNING".

(** A state that is neither QUEUED nor RUNNING. *)
Definition terminalState (response : GetQueryExecutionCommandOutput) : Prop :=
  getState response ≠ Some "QUEUED" ∧ getState response ≠ Some "RUNNING".

(** What [n] turns of the polling loop show: the wait, when the interval
    is positive, then the status fetch. *)
Fixpoint repollEvents (id : option string) (ms : Z) (n : nat) : list Event :=
  match n with
  | 0 => []
  | S n' => (if decide (0 < ms)%Z then [Sleep ms] else [])
            ++ Send (GetQueryExecutionCommand id) :: repollEvents id ms n'
  end.

(** The rows of a page; an absent [ResultSet] or [Rows] is no row. *)
Definition pageRows (response : GetQueryResultsCommandOutput) : list Row :=
  default [] (output_ResultSet response ≫= Rows).

(** The cells of row 0 of a page. *)
Definition headerCells (response : GetQueryResultsCommandOutput) : list Datum :=
  match pageRows response with
  | header :: _ => default [] (Data header)
  | [] => []
  end.

(** The rows of a page that are converted: all but row 0 on the first
    page, all of them on the others. *)
Definition dataRows (isFirst : bool) (response : GetQueryResultsCommandOutput) : list Row :=
  if isFirst then drop 1 (pageRows response) else pageRows response.

(** The status indicator of a page fetch is 'ok'. *)
Definition statusOk (response : GetQueryResultsCommandOutput) : Prop :=
  httpStatusCode (metadata response) = Some 200%Z.

(** [batches] are the records of [pages], page by page, under
    [fieldNames]; [isFirst] tells whether the first of [pages] is page 1
    of the run. *)
Fixpoint converted (fieldNames : list string) (isFirst : bool)
    (pages : list GetQueryResultsCommandOutput)
    (batches : list (list JsonValue)) : Prop :=
  match pages, batches with
  | [], [] => True
  | page :: pages', batch :: batches' =>
      fromRowsToJsonValues (dataRows isFirst page) fieldNames = inr batch
      ∧ converted fieldNames false pages' batches'
  | _, _ => False
  end.

(** The consumer resolves for each of [batches], called in order from
    state [b]. *)
Fixpoint accepts (processor : BatchProcessor B)
    (batches : list (list JsonValue)) (b : B) : Prop :=
  match batches with
  | [] => True
  | batch :: batches' =>
      (processor batch b).1 = None ∧ accepts processor batches' (processor batch b).2
  end.

(** The consumer's state after it was called with each of [batches]. *)
Fixpoint deliverAll (processor : BatchProcessor B)
    (batches : list (list JsonValue)) (b : B) : B :=
  match batches with
  | [] => b
  | batch :: batches' => deliverAll processor batches' (processor batch b).2
  end.

(** Fetch and delivery of [pages], in turn: each page is requested with
    the token of the page before it ([token] for the first one) and its
    batch is handed to the consumer before the next request. *)
Fixpoint pageEvents (id : option string) (token : option string)
    (pages : list GetQueryResultsCommandOutput)
    (batches : list (list JsonValue)) : list Event :=
  match pages, batches with
  | page :: pages', batch :: batches' =>
      Send (GetQueryResultsCommand {| input_QueryExecutionId := id;
                                      input_NextToken := token |})
      :: BatchProcessorCall batch
      :: pageEvents id (output_NextToken page) pages' batches'
  | _, _ => []
  end.

(** The token the loop holds after [pages], starting from [token]. *)
Definition lastToken (token : option string)
    (pages : list GetQueryResultsCommandOutput) : option string :=
  default token (output_NextToken <$> last pages).

(** Every page but the last carries a continuation token and the last
    one carries none. *)
Fixpoint linked (pages : list GetQueryResultsCommandOutput) : Prop :=
  match pages with
  | [] => False
  | page :: pages' =>
      match pages' with
      | [] => output_NextToken page = None
      | _ :: _ => is_Some (output_NextToken page) ∧ linked pages'
      end
  end.

(** The batches handed to the consumer, as a trace shows them. *)
Definition batchesIn (events : list Event) : list (list JsonValue) :=
  omap (λ e, match e with BatchProcessorCall rows => Some rows | _ => None end) events.

(** The field names a run derives: those of the header of its first
    page. *)
Definition firstPageFieldNames (pages : list GetQueryResultsCommandOutput) : list string :=
  match pages with
  | first :: _ => headerFieldNames (output_ResultSet first ≫= Rows)
  | [] => []
  end.

(** [h'] comes after [h] in a run that did not touch the handle: the
    same handle, and a trace that extends the one of [h]. *)
Definition extends (h h' : Heap B) : Prop :=
  QueryExecutionId (this h') = QueryExecutionId (this h)
  ∧ ∃ events, trace h' = trace h ++ events.

(** A computation that leaves the handle alone and only adds to the
    trace, whatever its outcome. *)
Definition steady {A} (m : M B A) : Prop := ∀ h, extends h (m h).2.

(** A fresh runner whose submission is answered with the handle [id] and
    whose polling sees the states of [pending], all QUEUED or RUNNING,
    and then SUCCEEDED. *)
Definition reachesRetrieval (h : Heap B) (id : string)
    (pending : list GetQueryExecutionCommandOutput) : Prop :=
  QueryExecutionId (this h) = None
  ∧ (start_QueryExecutionId <$> head (expectedStartQueries (athenaClient (this h)))
     = Some (Some id))
  ∧ take (length pending) (expectedWaitForSuccessfulResults (athenaClient (this h)))
    = pending
  ∧ Forall pendingState pending
  ∧ (getState <$> expectedWaitForSuccessfulResults (athenaClient (this h)) !! length pending)
    = Some (Some "SUCCEEDED").

(** The heap of such a runner when retrieval starts. *)
Definition atRetrieval (h : Heap B) (id : string)
    (pending : list GetQueryExecutionCommandOutput) : Heap B :=
  updated h
    (setWaitForSuccessfulResults
       (drop (S (length pending))
          (expectedWaitForSuccessfulResults (athenaClient (this h))))
       (setStartQueries (drop 1 (expectedStartQueries (athenaClient (this h))))
          (athenaClient (this h))))
    (Some id) (consumer h)
    (Send (StartQueryExecutionCommand (query (this h)))
     :: Send (GetQueryExecutionCommand (Some id))
     :: repollEvents (Some id) (sleepMs (this h)) (length pending)).

End Vocabulary.

(** ** The scenarios of the test suite

    The canned responses of [index.test.ts] and variations of them. *)

(** [async (rows) => { results.push(...rows); }]. *)
Definition pushAll : BatchProcessor (list JsonValue) :=
  λ rows results, (None, results ++ rows).

(** A consumer that counts its calls and rejects the second one. *)
Definition rejectSecond : BatchProcessor nat :=
  λ rows calls, (if decide (calls = 1) then Some (Rejected "no more") else None, S calls).

Definition cell (text : string) : Datum := {| VarCharValue := Some text |}.

Definition rowOf (texts : list string) : Row := {| Data := Some (cell <$> texts) |}.

Definition pageOf (code : Z) (token : option string) (rows : list Row)
    : GetQueryResultsCommandOutput :=
  {| metadata := {| httpStatusCode := Some code |};
     output_ResultSet := Some {| Rows := Some rows |};
     output_NextToken := token |}.

Definition stateOf (state : string) : GetQueryExecutionCommandOutput :=
  {| output_QueryExecution := Some {| Status := Some {| State := Some state |} |} |}.

Definition started (id : option string) : StartQueryExecutionCommandOutput :=
  {| start_QueryExecutionId := id |}.

Definition person (first last : string) : JsonValue :=
  <["last_name" := Some last]> (<["first_name" := Some first]> ∅).

Definition testQuery : string := "select * FROM my_db.my_table".

Definition page1 : GetQueryResultsCommandOutput :=
  pageOf 200 (Some "NextResult1")
    [rowOf ["first_name"; "last_name"]; rowOf ["John"; "Smith"]].

Definition page2 : GetQueryResultsCommandOutput :=
  pageOf 200 (Some "NextResult2")
    [rowOf ["Maria"; "Rodriguez"]; rowOf ["Mary"; "Johnson"]].

Definition page3 : GetQueryResultsCommandOutput :=
  pageOf 200 None [rowOf ["Joseph"; "Jones"]].

(** A first page with nothing but the header row. *)
Definition headerOnly : GetQueryResultsCommandOutput :=
  pageOf 200 None [rowOf ["first_name"; "last_name"]].

(** The page of the test 'GetResults failed'. *)
Definition failedPage : GetQueryResultsCommandOutput :=
  {| metadata := {| httpStatusCode := Some 500%Z |};
     output_ResultSet := None;
     output_NextToken := None |}.

(** The client of the test 'multiple calls'. *)
Definition multipleCalls : AthenaClient :=
  {| expectedStartQueries := [started (Some "abc-xyz")];
     expectedWaitForSuccessfulResults :=
       [stateOf "QUEUED"; stateOf "RUNNING"; stateOf "SUCCEEDED"];
     expectedGetResults := [page1; page2; page3] |}.

Definition heapOf {B} (client : AthenaClient) (processor : BatchProcessor B)
    (b : B) : Heap B :=
  {| this := newAthenaQuery client testQuery processor (Some 1%Z);
     consumer := b;
     trace := [] |}.

(** The same runner once its submission has been answered. *)
Definition submitted {B} (h : Heap B) (id : string) : Heap B :=
  updated h (athenaClient (this h)) (Some id) (consumer h) [].

(** The service answers the first submission without a handle and has a
    second answer, with one, in store. *)
Definition noHandleThenHandle : AthenaClient :=
  {| expectedStartQueries := [started None; started (Some "abc-xyz")];
     expectedWaitForSuccessfulResults := [stateOf "SUCCEEDED"];
     expectedGetResults := [page3] |}.

(** The service answers the submission with the empty string as handle. *)
Definition emptyHandle : AthenaClient :=
  {| expectedStartQueries := [started (Some EmptyString)];
     expectedWaitForSuccessfulResults := [stateOf "SUCCEEDED"];
     expectedGetResults := [headerOnly] |}.

(** The service reports FAILED after one QUEUED. *)
Definition failing : AthenaClient :=
  {| expectedStartQueries := [started (Some "abc-xyz")];
     expectedWaitForSuccessfulResults := [stateOf "QUEUED"; stateOf "FAILED"];
     expectedGetResults := [page3] |}.

(** The second page fetch is answered with status 500. *)
Definition secondPageFails : AthenaClient :=
  {| expectedStartQueries := [started (Some "abc-xyz")];
     expectedWaitForSuccessfulResults := [stateOf "SUCCEEDED"];
     expectedGetResults := [page1; failedPage; page3] |}.

(** A single page whose header has no text in its second cell. *)
Definition anonymousColumn : GetQueryResultsCommandOutput :=
  pageOf 200 None
    [ {| Data := Some [cell "first_name"; {| VarCharValue := None |}] |};
      rowOf ["John"; "Smith"] ].

Definition anonymous : AthenaClient :=
  {| expectedStartQueries := [];
     expectedWaitForSuccessfulResults := [];
     expectedGetResults := [anonymousColumn] |}.

(** The first request of a run with handle 'abc-xyz'. *)
Definition firstRequest : GetQueryResultsInput :=
  {| input_QueryExecutionId := Some "abc-xyz"; input_NextToken := None |}.

(** ** Further scenarios *)

(** The second page has a row with three values under a header of two. *)
Definition longRowPage : GetQueryResultsCommandOutput :=
  pageOf 200 (Some "NextResult2")
    [rowOf ["Maria"; "Rodriguez"]; rowOf ["Mary"; "Johnson"; "42"]].

Definition secondPageTooLong : AthenaClient :=
  {| expectedStartQueries := [started (Some "abc-xyz")];
     expectedWaitForSuccessfulResults := [stateOf "SUCCEEDED"];
     expectedGetResults := [page1; longRowPage; page3] |}.

(** The service only ever answers QUEUED and RUNNING. *)
Definition neverTerminal : AthenaClient :=
  {| expectedStartQueries := [started (Some "abc-xyz")];
     expectedWaitForSuccessfulResults := [stateOf "QUEUED"; stateOf "RUNNING"];
     expectedGetResults := [page3] |}.

(** A status response without [QueryExecution]. *)
Definition stateless : AthenaClient :=
  {| expectedStartQueries := [];
     expectedWaitForSuccessfulResults := [ {| output_QueryExecution := None |} ];
     expectedGetResults := [] |}.

(** ** Vocabulary of the invariants *)

Section Invariants.

Context {B : Type}.

(** The events of polling for the handle [id] with interval [ms]: a
    status fetch for [id], or a wait of [ms], which is then positive. *)
Definition pollingEvent (id : option string) (ms : Z) (e : Event) : Prop :=
  match e with
  | Send (GetQueryExecutionCommand id') => id' = id
  | Sleep ms' => ms' = ms ∧ (0 < ms)%Z
  | _ => False
  end.

(** The events of retrieval for the handle [id]: a page request for
    [id], or a call of the consumer. *)
Definition retrievalEvent (id : option string) (e : Event) : Prop :=
  match e with
  | Send (GetQueryResultsCommand input) => input_QueryExecutionId input = id
  | BatchProcessorCall _ => True
  | _ => False
  end.

(** The instance fields that only the constructor and [startQuery]
    write. *)
Definition settled (id : option string) (ms : Z) (processor : BatchProcessor B)
    (h : Heap B) : Prop :=
  QueryExecutionId (this h) = id
  ∧ sleepMs (this h) = ms
  ∧ batchProcessor (this h) = processor.

(** [m] leaves these fields alone, adds to the trace only events that
    satisfy [P], and changes the consumer's state only through the calls
    it adds to the trace. *)
Definition keeps (id : option string) (ms : Z) (processor : BatchProcessor B)
    (P : Event → Prop) {A} (m : M B A) : Prop :=
  ∀ h, settled id ms processor h →
    settled id ms processor (m h).2
    ∧ ∃ events,
        trace (m h).2 = trace h ++ events
        ∧ Forall P events
        ∧ consumer (m h).2 = deliverAll processor (batchesIn events) (consumer h).

(** [m] keeps the property [I] of the heap. *)
Definition preserves (I : Heap B → Prop) {A} (m : M B A) : Prop :=
  ∀ h, I h → I (m h).2.

End Invariants.

(** Decidable facts about the scenarios are settled by evaluation. *)
Ltac by_computation := apply (bool_decide_unpack _); vm_compute; exact I.

(* ================================================================== *)
(** * Properties *)

(** ** Row conversion *)

Section Conversion.

Implicit Types (fieldNames : list string) (data : list Datum) (row : Row).
Implicit Types (rows : list Row) (result : JsonValue).

(** The only value [forEachData] throws is the header-row complaint. *)
Lemma forEachData_cases fieldNames data : ∀ index result,
  (∃ result', forEachData fieldNames index data result = inr result')
  ∨ forEachData fieldNames index data result = inl HeaderRowIsNotLongEnough.
Proof.
  induction data as [|d data IH]; intros index result; simpl.
  - left. by eexists.
  - destruct (fieldNames !! index) as [fieldName|]; [|by right].
    case_decide; [by right|]. apply IH.
Qed.

(** The exact condition under which [forEachData] throws: some occupied
    index has no field name, or an empty one. *)
Lemma forEachData_inl_iff fieldNames data : ∀ index result,
  forEachData fieldNames index data result = inl HeaderRowIsNotLongEnough
  ↔ ∃ j, j < length data
         ∧ (fieldNames !! (index + j) = None ∨ fieldNames !! (index + j) = Some EmptyString).
Proof.
  induction data as [|d data IH]; intros index result; simpl.
  - split; [done|]. intros (j & Hj & _). lia.
  - destruct (fieldNames !! index) as [fieldName|] eqn:Hname.
    + case_decide as Hempty.
      * split; [intros _|done]. exists 0. rewrite Nat.add_0_r.
        split; [lia|]. right. by rewrite Hname, Hempty.
      * rewrite IH. split.
        -- intros (j & Hj & Hbad). exists (S j).
           rewrite Nat.add_succ_r. split; [lia|done].
        -- intros (j & Hj & Hbad). destruct j as [|j].
           ++ rewrite Nat.add_0_r, Hname in Hbad.
              destruct Hbad as [?|[= ?]]; done.
           ++ exists j. rewrite Nat.add_succ_r in Hbad. split; [lia|done].
    + split; [intros _|done]. exists 0. rewrite Nat.add_0_r.
      split; [lia|by left].
Qed.

(** With no empty field name, [forEachData] throws exactly when the data
    reaches past the end of [fieldNames]. *)
Lemma forEachData_throws_iff fieldNames data result :
  Forall (λ name, name ≠ EmptyString) fieldNames →
  forEachData fieldNames 0 data result = inl HeaderRowIsNotLongEnough
  ↔ length fieldNames < length data.
Proof.
  intros Hnames. rewrite forEachData_inl_iff. simpl. split.
  - intros (j & Hj & [Hnone|Hempty]).
    + apply lookup_ge_None in Hnone. lia.
    + rewrite Forall_lookup in Hnames. by destruct (Hnames _ _ Hempty).
  - intros Hlen. exists (length fieldNames). split; [lia|].
    left. by apply lookup_ge_None.
Qed.

Lemma rowToJsonValue_cases fieldNames row :
  (∃ result, rowToJsonValue fieldNames row = inr result)
  ∨ rowToJsonValue fieldNames row = inl HeaderRowIsNotLongEnough.
Proof.
  unfold rowToJsonValue. destruct (Data row); [apply forEachData_cases|].
  left. by eexists.
Qed.

Lemma rowToJsonValue_throws_iff fieldNames row :
  Forall (λ name, name ≠ EmptyString) fieldNames →
  rowToJsonValue fieldNames row = inl HeaderRowIsNotLongEnough
  ↔ length fieldNames < rowLength row.
Proof.
  intros Hnames. unfold rowToJsonValue, rowLength.
  destruct (Data row) as [data|]; simpl.
  - by rewrite forEachData_throws_iff.
  - split; [done|lia].
Qed.

Lemma fromRowsToJsonValues_cases rows fieldNames :
  (∃ records, fromRowsToJsonValues rows fieldNames = inr records
              ∧ length records = length rows)
  ∨ fromRowsToJsonValues rows fieldNames = inl HeaderRowIsNotLongEnough.
Proof.
  induction rows as [|row rows IH]; simpl.
  - left. by eexists.
  - destruct (rowToJsonValue_cases fieldNames row) as [[result ->]| ->]; [|by right].
    destruct IH as [(records & -> & Hlen)| ->]; [|by right].
    left. eexists. split; [done|]. simpl. by rewrite Hlen.
Qed.

Lemma fromRowsToJsonValues_nil fieldNames :
  fromRowsToJsonValues [] fieldNames = inr [].
Proof. done. Qed.

(** C3 (amended).  When no field name is empty, the conversion of a
    list of rows throws 'Header row is not long enough.' if and only if
    some row has more positional values than there are field names; it
    throws nothing else; and when every row has at most as many values
    as there are field names it returns one record per row. *)
Theorem fromRowsToJsonValues_throws_iff rows fieldNames :
  Forall (λ name, name ≠ EmptyString) fieldNames →
  (fromRowsToJsonValues rows fieldNames = inl HeaderRowIsNotLongEnough
   ↔ Exists (λ row, length fieldNames < rowLength row) rows)
  ∧ (∀ e, fromRowsToJsonValues rows fieldNames = inl e → e = HeaderRowIsNotLongEnough)
  ∧ (Forall (λ row, rowLength row ≤ length fieldNames) rows →
     ∃ records, fromRowsToJsonValues rows fieldNames = inr records
                ∧ length records = length rows).
Proof.
  intros Hnames.
  assert (fromRowsToJsonValues rows fieldNames = inl HeaderRowIsNotLongEnough
          ↔ Exists (λ row, length fieldNames < rowLength row) rows) as Hiff.
  { induction rows as [|row rows IH]; simpl.
    - split; [done|]. by intros ?%Exists_nil.
    - rewrite Exists_cons, <-IH, <-(rowToJsonValue_throws_iff _ _ Hnames).
      destruct (rowToJsonValue_cases fieldNames row) as [[result ->]| ->].
      + destruct (fromRowsToJsonValues_cases rows fieldNames)
          as [(records & -> & _)| ->].
        * split; [done|]. by intros [?|?].
        * split; [by right|done].
      + split; [by left|done]. }
  split; [done|]. split.
  - intros e He.
    destruct (fromRowsToJsonValues_cases rows fieldNames)
      as [(records & Hr & _)|Hr]; congruence.
  - intros Hfit.
    destruct (fromRowsToJsonValues_cases rows fieldNames) as [?|Hthrow]; [assumption|].
    apply Hiff, Exists_exists in Hthrow as (row & Hin & Hlong).
    rewrite Forall_forall in Hfit. specialize (Hfit _ Hin). lia.
Qed.

(** [forEachData] over non-empty, pairwise distinct field names that are
    not yet keys of [result]: one new entry per datum. *)
Lemma forEachData_distinct fieldNames data : ∀ index result,
  index + length data ≤ length fieldNames →
  Forall (λ name, name ≠ EmptyString) (take (length data) (drop index fieldNames)) →
  NoDup (take (length data) (drop index fieldNames)) →
  (∀ name, name ∈ take (length data) (drop index fieldNames) → result !! name = None) →
  ∃ result', forEachData fieldNames index data result = inr result'
    ∧ size result' = size result + length data
    ∧ (∀ j d, data !! j = Some d →
         ∃ name, fieldNames !! (index + j) = Some name
                 ∧ result' !! name = Some (VarCharValue d))
    ∧ (∀ name, name ∉ take (length data) (drop index fieldNames) →
         result' !! name = result !! name).
Proof.
  induction data as [|d data IH]; intros index result Hlen Hne Hdup Hfresh; simpl in *.
  - exists result. split; [done|]. split; [lia|]. split; [|done].
    intros j d' Hj. by rewrite lookup_nil in Hj.
  - destruct (lookup_lt_is_Some_2 fieldNames index) as [fieldName Hname]; [lia|].
    rewrite Hname. rewrite (drop_S _ _ _ Hname) in Hne, Hdup, Hfresh |- *.
    simpl in *. apply Forall_cons in Hne as [Hne1 Hne].
    apply NoDup_cons in Hdup as [Hnotin Hdup].
    rewrite decide_False by done.
    destruct (IH (S index) (<[fieldName := VarCharValue d]> result))
      as (result' & Hrun & Hsize & Hget & Hother); [lia|done|done| |].
    { intros name Hin. rewrite lookup_insert_ne by (by intros ->).
      apply Hfresh. by right. }
    exists result'. split; [done|]. split; [|split].
    + rewrite Hsize, map_size_insert_None; [lia|]. apply Hfresh. by left.
    + intros [|j] d' Hj; simpl in Hj.
      * injection Hj as <-. exists fieldName. rewrite Nat.add_0_r.
        split; [done|]. rewrite Hother by done. apply lookup_insert_eq.
      * rewrite Nat.add_succ_r. by apply Hget.
    + intros name Hname'. apply not_elem_of_cons in Hname' as [Hneq Hname'].
      rewrite Hother by done. by apply lookup_insert_ne.
Qed.



End Conversion.

(** ** Running the methods step by step *)

Section Steps.

Context {B : Type}.
Implicit Types (h : Heap B) (fuel : nat).

Lemma updated_updated h c1 id1 b1 ev1 c2 id2 b2 ev2 :
  updated (updated h c1 id1 b1 ev1) c2 id2 b2 ev2 = updated h c2 id2 b2 (ev1 ++ ev2).
Proof. unfold updated; simpl. by rewrite app_assoc. Qed.

Lemma updated_same h :
  updated h (athenaClient (this h)) (QueryExecutionId (this h)) (consumer h) [] = h.
Proof. destruct h as [[] ? ?]. unfold updated; simpl. by rewrite app_nil_r. Qed.

Lemma setStartQueries_same (c : AthenaClient) :
  setStartQueries (expectedStartQueries c) c = c.
Proof. by destruct c. Qed.

Lemma setWaitForSuccessfulResults_same (c : AthenaClient) :
  setWaitForSuccessfulResults (expectedWaitForSuccessfulResults c) c = c.
Proof. by destruct c. Qed.

Lemma setGetResults_same (c : AthenaClient) :
  setGetResults (expectedGetResults c) c = c.
Proof. by destruct c. Qed.

(** Sequencing. *)
Lemma bind_returned {A A'} (m : M B A) (f : A → M B A') h a h' :
  m h = (Returned a, h') → (m ≫= f) h = f a h'.
Proof. unfold mbind, M_bind. by intros ->. Qed.

Lemma bind_threw {A A'} (m : M B A) (f : A → M B A') h e h' :
  m h = (Threw e, h') → (m ≫= f) h = (Threw e, h').
Proof. unfold mbind, M_bind. by intros ->. Qed.

(** [send], by kind of command. *)
Lemma send_start h QueryString response q :
  expectedStartQueries (athenaClient (this h)) = response :: q →
  send (StartQueryExecutionCommand QueryString) h
  = (Returned response,
     updated h (setStartQueries q (athenaClient (this h)))
       (QueryExecutionId (this h)) (consumer h)
       [Send (StartQueryExecutionCommand QueryString)]).
Proof.
  intros Hq. unfold send, mbind, M_bind, emit, shift; simpl. by rewrite Hq.
Qed.

Lemma send_status h id response q :
  expectedWaitForSuccessfulResults (athenaClient (this h)) = response :: q →
  send (GetQueryExecutionCommand id) h
  = (Returned response,
     updated h (setWaitForSuccessfulResults q (athenaClient (this h)))
       (QueryExecutionId (this h)) (consumer h)
       [Send (GetQueryExecutionCommand id)]).
Proof.
  intros Hq. unfold send, mbind, M_bind, emit, shift; simpl. by rewrite Hq.
Qed.

Lemma send_results h input response q :
  expectedGetResults (athenaClient (this h)) = response :: q →
  send (GetQueryResultsCommand input) h
  = (Returned response,
     updated h (setGetResults q (athenaClient (this h)))
       (QueryExecutionId (this h)) (consumer h)
       [Send (GetQueryResultsCommand input)]).
Proof.
  intros Hq. unfold send, mbind, M_bind, emit, shift; simpl. by rewrite Hq.
Qed.

Lemma callBatchProcessor_run h rows :
  callBatchProcessor rows h
  = (match (batchProcessor (this h) rows (consumer h)).1 with
     | Some e => Threw e
     | None => Returned ()
     end,
     updated h (athenaClient (this h)) (QueryExecutionId (this h))
       (batchProcessor (this h) rows (consumer h)).2 [BatchProcessorCall rows]).
Proof.
  unfold callBatchProcessor, updated.
  destruct h as [[client q processor id ms] b events]; simpl.
  by destruct (processor rows b) as [[e|] b'].
Qed.

Lemma isTerminalState_true response :
  terminalState response → isTerminalState (getState response) = true.
Proof.
  intros [H1 H2]. unfold isTerminalState.
  by rewrite !bool_decide_eq_true_2.
Qed.

Lemma isTerminalState_false response :
  pendingState response → isTerminalState (getState response) = false.
Proof.
  unfold isTerminalState. intros [-> | ->]; by vm_compute.
Qed.

(** *** Submission *)

Lemma startQuery_run h response q :
  expectedStartQueries (athenaClient (this h)) = response :: q →
  startQuery h
  = (match start_QueryExecutionId response with
     | Some _ => Returned ()
     | None => Threw (ExpectedIdAfterStartQuery response)
     end,
     updated h (setStartQueries q (athenaClient (this h)))
       (start_QueryExecutionId response) (consumer h)
       [Send (StartQueryExecutionCommand (query (this h)))]).
Proof.
  intros Hq. unfold startQuery.
  rewrite (bind_returned _ _ h (this h) h) by done.
  erewrite bind_returned by (by apply send_start).
  unfold mbind, M_bind, setQueryExecutionId, getThis; simpl.
  by destruct (start_QueryExecutionId response).
Qed.

(** *** Polling *)

Lemma waitLoop_run final rest pending : ∀ h fuel current more,
  current :: more = pending ++ [final] →
  expectedWaitForSuccessfulResults (athenaClient (this h)) = more ++ rest →
  Forall pendingState pending →
  terminalState final →
  length pending ≤ fuel →
  waitLoop fuel current h
  = (Returned final,
     updated h (setWaitForSuccessfulResults rest (athenaClient (this h)))
       (QueryExecutionId (this h)) (consumer h)
       (repollEvents (QueryExecutionId (this h)) (sleepMs (this h)) (length pending))).
Proof.
  induction pending as [|p pending IH]; intros h fuel current more Hseq Hq Hpend Hfinal Hfuel.
  - injection Hseq as -> ->. simpl in Hq.
    assert (waitLoop fuel final h = (Returned final, h)) as ->.
    { destruct fuel; simpl; by rewrite isTerminalState_true. }
    by rewrite <-Hq, setWaitForSuccessfulResults_same, updated_same.
  - injection Hseq as -> Hmore. apply Forall_cons in Hpend as [Hp Hpend].
    destruct fuel as [|fuel]; [simpl in Hfuel; lia|].
    destruct (pending ++ [final]) as [|next more'] eqn:Hnext;
      [by destruct pending|]. subst more. simpl in Hq.
    simpl. rewrite isTerminalState_false by done.
    rewrite (bind_returned _ _ h (this h) h) by done.
    set (wait := if decide (0 < sleepMs (this h))%Z then [Sleep (sleepMs (this h))] else []).
    set (h1 := updated h (athenaClient (this h)) (QueryExecutionId (this h)) (consumer h) wait).
    rewrite (bind_returned _ _ h () h1); last first.
    { subst h1 wait. case_decide.
      - unfold sleep, emit, withEvent, updated. by destruct h as [[] ? ?].
      - by rewrite updated_same. }
    erewrite bind_returned by (by apply send_status).
    erewrite IH; [| done | done | done | done | simpl in Hfuel; lia].
    subst h1. simpl. by rewrite !updated_updated.
Qed.

Lemma waitForSuccessfulResult_run h fuel pending final rest :
  expectedWaitForSuccessfulResults (athenaClient (this h)) = pending ++ final :: rest →
  Forall pendingState pending →
  terminalState final →
  length pending ≤ fuel →
  waitForSuccessfulResult fuel h
  = (if decide (getState final = Some "SUCCEEDED") then Returned ()
     else Threw (UnsupportedResponseState (getState final)),
     updated h (setWaitForSuccessfulResults rest (athenaClient (this h)))
       (QueryExecutionId (this h)) (consumer h)
       (Send (GetQueryExecutionCommand (QueryExecutionId (this h)))
        :: repollEvents (QueryExecutionId (this h)) (sleepMs (this h)) (length pending))).
Proof.
  intros Hq Hpend Hfinal Hfuel. unfold waitForSuccessfulResult.
  rewrite (bind_returned _ _ h (this h) h) by done.
  destruct (pending ++ [final]) as [|current more] eqn:Hseq; [by destruct pending|].
  assert (pending ++ final :: rest = current :: more ++ rest) as Hq'.
  { by rewrite (cons_middle final), app_assoc, Hseq. }
  rewrite Hq' in Hq.
  erewrite bind_returned by (by apply send_status).
  erewrite bind_returned; last first.
  { by eapply (waitLoop_run final rest pending _ _ current more). }
  simpl. rewrite updated_updated. simpl.
  case_decide; case_decide; done.
Qed.

(** *** Retrieval *)

(** One page fetch answered with status 'ok'. *)
Lemma getResults_run h input isFirst fieldNames response q :
  expectedGetResults (athenaClient (this h)) = response :: q →
  statusOk response →
  getResults input isFirst fieldNames h
  = (let fieldNames' :=
       if isFirst then headerFieldNames (output_ResultSet response ≫= Rows)
       else fieldNames in
     match fromRowsToJsonValues (dataRows isFirst response) fieldNames' with
     | inr data => Returned {| result_Data := data;
                               result_NextToken := output_NextToken response;
                               result_fieldNames := fieldNames' |}
     | inl e => Threw e
     end,
     updated h (setGetResults q (athenaClient (this h)))
       (QueryExecutionId (this h)) (consumer h)
       [Send (GetQueryResultsCommand input)]).
Proof.
  intros Hq Hok. unfold getResults.
  erewrite bind_returned by (by apply send_results).
  rewrite decide_False by (by intros []).
  unfold dataRows, pageRows, mbind at 1, M_bind, liftThrown.
  destruct isFirst, (output_ResultSet response ≫= Rows) as [rows|]; simpl.
  - by destruct (fromRowsToJsonValues (drop 1 rows) _).
  - done.
  - by destruct (fromRowsToJsonValues rows fieldNames).
  - done.
Qed.

(** One page fetch answered with another status. *)
Lemma getResults_failed h input isFirst fieldNames response q :
  expectedGetResults (athenaClient (this h)) = response :: q →
  ¬ statusOk response →
  getResults input isFirst fieldNames h
  = (Threw (GetQueryResultsFailed response),
     updated h (setGetResults q (athenaClient (this h)))
       (QueryExecutionId (this h)) (consumer h)
       [Send (GetQueryResultsCommand input)]).
Proof.
  intros Hq Hok. unfold getResults.
  erewrite bind_returned by (by apply send_results).
  by rewrite decide_True.
Qed.

(** The first page: fetched, converted, and handed to the consumer; the
    loop then starts from its token with its field names. *)
Lemma getResultsInBatches_first h fuel first q batch :
  expectedGetResults (athenaClient (this h)) = first :: q →
  statusOk first →
  fromRowsToJsonValues (dataRows true first)
    (headerFieldNames (output_ResultSet first ≫= Rows)) = inr batch →
  getResultsInBatches fuel h
  = (callBatchProcessor batch;;
     batchLoop fuel (headerFieldNames (output_ResultSet first ≫= Rows))
       (output_NextToken first))
      (updated h (setGetResults q (athenaClient (this h)))
         (QueryExecutionId (this h)) (consumer h)
         [Send (GetQueryResultsCommand
                  {| input_QueryExecutionId := QueryExecutionId (this h);
                     input_NextToken := None |})]).
Proof.
  intros Hq Hok Hbatch. unfold getResultsInBatches.
  rewrite (bind_returned _ _ h (this h) h) by done.
  erewrite bind_returned; last first.
  { rewrite (getResults_run _ _ _ _ first q) by done.
    cbv beta iota zeta. by rewrite Hbatch. }
  done.
Qed.

(** One turn of the loop, likewise. *)
Lemma batchLoop_step h fuel fieldNames token page q batch :
  expectedGetResults (athenaClient (this h)) = page :: q →
  statusOk page →
  fromRowsToJsonValues (dataRows false page) fieldNames = inr batch →
  batchLoop (S fuel) fieldNames (Some token) h
  = (callBatchProcessor batch;;
     batchLoop fuel fieldNames (output_NextToken page))
      (updated h (setGetResults q (athenaClient (this h)))
         (QueryExecutionId (this h)) (consumer h)
         [Send (GetQueryResultsCommand
                  {| input_QueryExecutionId := QueryExecutionId (this h);
                     input_NextToken := Some token |})]).
Proof.
  intros Hq Hok Hbatch. simpl.
  rewrite (bind_returned _ _ h (this h) h) by done.
  erewrite bind_returned; last first.
  { rewrite (getResults_run _ _ _ _ page q) by done.
    cbv beta iota zeta. by rewrite Hbatch. }
  done.
Qed.

Lemma batchLoop_unfold h fuel fieldNames token :
  batchLoop (S fuel) fieldNames (Some token) h
  = (pageResults ← getResults
       {| input_QueryExecutionId := QueryExecutionId (this h);
          input_NextToken := Some token |} false fieldNames;
     callBatchProcessor (result_Data pageResults);;
     batchLoop fuel fieldNames (result_NextToken pageResults)) h.
Proof. simpl. by rewrite (bind_returned _ _ h (this h) h). Qed.

Lemma batchLoop_done h fuel fieldNames :
  batchLoop fuel fieldNames None h = (Returned (), h).
Proof. by destruct fuel. Qed.

(** The consumer resolves: the run goes on from the heap that records
    the call. *)
Lemma callBatchProcessor_accepted {A} h rows (k : M B A) :
  (batchProcessor (this h) rows (consumer h)).1 = None →
  (callBatchProcessor rows;; k) h
  = k (updated h (athenaClient (this h)) (QueryExecutionId (this h))
         (batchProcessor (this h) rows (consumer h)).2 [BatchProcessorCall rows]).
Proof.
  intros Hacc. erewrite bind_returned; last first.
  { by rewrite callBatchProcessor_run, Hacc. }
  done.
Qed.

(** The consumer rejects: the run ends with the consumer's own error. *)
Lemma callBatchProcessor_rejected {A} h rows (k : M B A) e :
  (batchProcessor (this h) rows (consumer h)).1 = Some e →
  (callBatchProcessor rows;; k) h
  = (Threw e,
     updated h (athenaClient (this h)) (QueryExecutionId (this h))
       (batchProcessor (this h) rows (consumer h)).2 [BatchProcessorCall rows]).
Proof.
  intros Hrej. erewrite bind_threw; last first.
  { by rewrite callBatchProcessor_run, Hrej. }
  done.
Qed.

(** A run of pages that are all fetched with status 'ok', converted,
    accepted by the consumer and followed by another page: the loop
    arrives at the next turn, holding the token of the last of them. *)
Lemma batchLoop_pages rest fieldNames pages : ∀ h fuel token batches,
  expectedGetResults (athenaClient (this h)) = pages ++ rest →
  Forall statusOk pages →
  Forall (λ page, is_Some (output_NextToken page)) pages →
  converted fieldNames false pages batches →
  accepts (batchProcessor (this h)) batches (consumer h) →
  batchLoop (length pages + fuel) fieldNames (Some token) h
  = batchLoop fuel fieldNames (lastToken (Some token) pages)
      (updated h (setGetResults rest (athenaClient (this h)))
         (QueryExecutionId (this h))
         (deliverAll (batchProcessor (this h)) batches (consumer h))
         (pageEvents (QueryExecutionId (this h)) (Some token) pages batches)).
Proof.
  induction pages as [|page pages IH]; intros h fuel token batches Hq Hok Htok Hconv Hacc.
  - destruct batches; [|done]. simpl in *.
    by rewrite <-Hq, setGetResults_same, updated_same.
  - destruct batches as [|batch batches]; [done|].
    simpl in Hq, Hconv, Hacc. destruct Hconv as [Hbatch Hconv], Hacc as [Hacc1 Hacc].
    apply Forall_cons in Hok as [Hok1 Hok], Htok as [[token' Htok1] Htok].
    change (length (page :: pages) + fuel) with (S (length pages + fuel)).
    rewrite (batchLoop_step _ _ _ _ page (pages ++ rest) batch) by done.
    rewrite callBatchProcessor_accepted by done. simpl.
    rewrite Htok1, (IH _ fuel token' batches) by done. simpl.
    rewrite !updated_updated.
    assert (lastToken (Some token) (page :: pages) = lastToken (Some token') pages) as ->; [|done].
    unfold lastToken. rewrite last_cons. destruct (last pages); simpl; by rewrite ?Htok1.
Qed.

End Steps.

(** ** What every method leaves alone *)

Section Steady.

Context {B : Type}.
Implicit Types (h : Heap B) (fuel : nat).

Lemma extends_refl h : extends h h.
Proof. split; [done|]. exists []. by rewrite app_nil_r. Qed.

Lemma extends_trans h1 h2 h3 : extends h1 h2 → extends h2 h3 → extends h1 h3.
Proof.
  intros [Hid1 [ev1 Htr1]] [Hid2 [ev2 Htr2]]. split; [congruence|].
  exists (ev1 ++ ev2). by rewrite Htr2, Htr1, app_assoc.
Qed.

Lemma extends_updated h c b events :
  extends h (updated h c (QueryExecutionId (this h)) b events).
Proof. split; [done|]. by exists events. Qed.

Lemma steady_ret {A} (a : A) : steady (mret a : M B A).
Proof. intros h. apply extends_refl. Qed.

Lemma steady_throw {A} e : steady (throw e : M B A).
Proof. intros h. apply extends_refl. Qed.

Lemma steady_outOfFuel {A} : steady (outOfFuel : M B A).
Proof. intros h. apply extends_refl. Qed.

Lemma steady_bind {A A'} (m : M B A) (f : A → M B A') :
  steady m → (∀ a, steady (f a)) → steady (m ≫= f).
Proof.
  intros Hm Hf h. unfold mbind, M_bind. specialize (Hm h).
  destruct (m h) as [[a|e|] h']; simpl in *; [|done..].
  eapply extends_trans; [done|]. apply Hf.
Qed.

Lemma steady_getThis : steady (getThis : M B _).
Proof. intros h. apply extends_refl. Qed.

Lemma steady_emit e : steady (emit e : M B _).
Proof. intros h. split; [done|]. by exists [e]. Qed.

Lemma steady_shift {A} name (get : AthenaClient → list A) set :
  steady (shift name get set : M B A).
Proof.
  intros h. unfold shift. destruct (get _); [apply extends_refl|].
  split; [done|]. exists []. simpl. by rewrite app_nil_r.
Qed.

Lemma steady_send command : steady (send command : M B _).
Proof.
  apply steady_bind; [apply steady_emit|]. intros _.
  destruct command; apply steady_shift.
Qed.

Lemma steady_callBatchProcessor rows : steady (callBatchProcessor rows : M B _).
Proof.
  intros h. rewrite callBatchProcessor_run. apply extends_updated.
Qed.

Lemma steady_waitLoop fuel : ∀ stateResponse, steady (waitLoop (B:=B) fuel stateResponse).
Proof.
  induction fuel as [|fuel IH]; intros stateResponse; simpl;
    (destruct (isTerminalState _); [apply steady_ret|]).
  - apply steady_outOfFuel.
  - apply steady_bind; [apply steady_getThis|]. intros self.
    apply steady_bind.
    { case_decide; [apply steady_emit|apply steady_ret]. }
    intros _.
    apply steady_bind; [apply (steady_send (GetQueryExecutionCommand _))|].
    apply IH.
Qed.

Lemma steady_waitForSuccessfulResult fuel :
  steady (waitForSuccessfulResult (B:=B) fuel).
Proof.
  apply steady_bind; [apply steady_getThis|]. intros self.
  apply steady_bind; [apply (steady_send (GetQueryExecutionCommand _))|].
  intros stateResponse.
  apply steady_bind; [apply steady_waitLoop|]. intros final. simpl.
  case_decide; [apply steady_throw|apply steady_ret].
Qed.

Lemma steady_getResults input isFirstQuery fieldNames :
  steady (getResults (B:=B) input isFirstQuery fieldNames).
Proof.
  apply steady_bind; [apply (steady_send (GetQueryResultsCommand _))|].
  intros response.
  case_decide; [apply steady_throw|]. simpl.
  apply steady_bind; [|intros; apply steady_ret].
  unfold liftThrown. destruct (match _ with Some _ => _ | None => _ end);
    [apply steady_throw|apply steady_ret].
Qed.

Lemma steady_batchLoop fuel fieldNames : ∀ NextToken,
  steady (batchLoop (B:=B) fuel fieldNames NextToken).
Proof.
  induction fuel as [|fuel IH]; intros [token|]; simpl;
    try apply steady_ret; try apply steady_outOfFuel.
  apply steady_bind; [apply steady_getThis|]. intros self.
  apply steady_bind; [apply steady_getResults|]. intros pageResults.
  apply steady_bind; [apply steady_callBatchProcessor|]. intros _. apply IH.
Qed.

Lemma steady_getResultsInBatches fuel : steady (getResultsInBatches (B:=B) fuel).
Proof.
  apply steady_bind; [apply steady_getThis|]. intros self.
  apply steady_bind; [apply steady_getResults|]. intros results.
  apply steady_bind; [apply steady_callBatchProcessor|]. intros _.
  apply steady_batchLoop.
Qed.

End Steady.

(** ** The run as a whole *)

Section Run.

Context {B : Type}.
Implicit Types (h : Heap B) (fuel : nat).

(** The guard of [processQuery]. *)
Lemma processQuery_used h fuel :
  is_Some (QueryExecutionId (this h)) →
  processQuery fuel h = (Threw CanOnlyBeUsedOnce, h).
Proof.
  intros [id Hid]. unfold processQuery.
  rewrite (bind_returned _ _ h (this h) h) by done.
  by rewrite Hid, decide_True.
Qed.

(** A fresh runner: the submission is sent; without a handle the run
    ends there, with one it goes on to poll. *)
Lemma processQuery_submitted h fuel response q :
  QueryExecutionId (this h) = None →
  expectedStartQueries (athenaClient (this h)) = response :: q →
  processQuery fuel h
  = match start_QueryExecutionId response with
    | None =>
        (Threw (ExpectedIdAfterStartQuery response),
         updated h (setStartQueries q (athenaClient (this h))) None (consumer h)
           [Send (StartQueryExecutionCommand (query (this h)))])
    | Some id =>
        (waitForSuccessfulResult fuel;; getResultsInBatches fuel)
          (updated h (setStartQueries q (athenaClient (this h))) (Some id) (consumer h)
             [Send (StartQueryExecutionCommand (query (this h)))])
    end.
Proof.
  intros Hid Hq. unfold processQuery.
  rewrite (bind_returned _ _ h (this h) h) by done.
  rewrite Hid, decide_False by (by intros []).
  destruct (start_QueryExecutionId response) as [id|] eqn:Hresp.
  - erewrite bind_returned; last first.
    { by rewrite (startQuery_run _ response q), Hresp. }
    by erewrite bind_returned by done.
  - erewrite bind_threw; [done|].
    by rewrite (startQuery_run _ response q), Hresp.
Qed.

(** Submission and polling both succeed: the run is at retrieval. *)
Lemma processQuery_retrieval h fuel id pending :
  reachesRetrieval h id pending →
  length pending ≤ fuel →
  processQuery fuel h = getResultsInBatches fuel (atRetrieval h id pending).
Proof.
  intros (Hfresh & Hstart & Hpending & Hstates & Hfinal) Hfuel.
  destruct (expectedStartQueries (athenaClient (this h)))
    as [|response q] eqn:Hq; [done|].
  simpl in Hstart. injection Hstart as Hresp.
  destruct (expectedWaitForSuccessfulResults (athenaClient (this h)) !! length pending)
    as [final|] eqn:Hlookup; [|done].
  simpl in Hfinal. injection Hfinal as Hfinal.
  pose proof (take_drop_middle _ _ _ Hlookup) as Hsplit. rewrite Hpending in Hsplit.
  rewrite (processQuery_submitted _ _ response q), Hresp by done.
  erewrite bind_returned; last first.
  { rewrite (waitForSuccessfulResult_run _ _ pending final
               (drop (S (length pending))
                  (expectedWaitForSuccessfulResults (athenaClient (this h))))).
    - rewrite decide_True by done. reflexivity.
    - done.
    - done.
    - split; rewrite Hfinal; by intros [=].
    - done. }
  unfold atRetrieval. by rewrite updated_updated, Hq.
Qed.

(** Once the submission has been answered with a handle, the rest of
    the run keeps it. *)
Lemma processQuery_keeps_handle h fuel response q id :
  QueryExecutionId (this h) = None →
  expectedStartQueries (athenaClient (this h)) = response :: q →
  start_QueryExecutionId response = Some id →
  QueryExecutionId (this (processQuery fuel h).2) = Some id.
Proof.
  intros Hfresh Hq Hresp.
  rewrite (processQuery_submitted _ _ response q), Hresp by done.
  set (h1 := updated _ _ _ _ _).
  assert (extends h1 ((waitForSuccessfulResult fuel;; getResultsInBatches fuel) h1).2)
    as [Hkeep _].
  { apply steady_bind; [apply steady_waitForSuccessfulResult|].
    intros _. apply steady_getResultsInBatches. }
  by rewrite Hkeep.
Qed.

(** C1 (amended).  Once a run has recorded an execution handle (its
    submission was answered with a [QueryExecutionId]), then however
    that run ended, every later [processQuery] on the same instance
    fails at once with 'AthenaQuery can only be used once.': it sends
    nothing, does not call the consumer, and leaves the instance, the
    consumer's state and the trace as the first run left them. *)
Theorem processQuery_single_use h fuel fuel' response q id :
  QueryExecutionId (this h) = None →
  expectedStartQueries (athenaClient (this h)) = response :: q →
  start_QueryExecutionId response = Some id →
  QueryExecutionId (this (processQuery fuel h).2) = Some id
  ∧ processQuery fuel' (processQuery fuel h).2
    = (Threw CanOnlyBeUsedOnce, (processQuery fuel h).2).
Proof.
  intros Hfresh Hq Hresp.
  pose proof (processQuery_keeps_handle h fuel response q id Hfresh Hq Hresp) as Hid.
  split; [done|]. apply processQuery_used. by rewrite Hid.
Qed.

(** Whatever [send] answers, the call itself is on the trace. *)
Lemma send_trace command h :
  trace (send command h).2 = trace h ++ [Send command].
Proof.
  unfold send, mbind, M_bind, emit, shift; simpl.
  destruct command; simpl; by destruct (_ (athenaClient (this h))).
Qed.

(** Polling opens with a status fetch for the recorded handle. *)
Lemma waitForSuccessfulResult_begins h fuel (k : M B ()) :
  steady k →
  ∃ events,
    trace ((waitForSuccessfulResult fuel;; k) h).2
    = trace h ++ Send (GetQueryExecutionCommand (QueryExecutionId (this h))) :: events.
Proof.
  intros Hk. unfold waitForSuccessfulResult.
  set (command := GetQueryExecutionCommand (QueryExecutionId (this h))).
  set (rest := λ stateResponse : GetQueryExecutionCommandOutput,
         (final ← waitLoop fuel stateResponse;
          if decide (getState final ≠ Some "SUCCEEDED")
          then throw (UnsupportedResponseState (getState final))
          else mret ()) ≫= λ _, k).
  assert (∀ r, steady (rest r)) as Hrest.
  { intros r. apply steady_bind; [|done].
    apply steady_bind; [apply steady_waitLoop|]. intros final.
    case_decide; [apply steady_throw|apply steady_ret]. }
  pose proof (send_trace command h) as Hsend.
  unfold mbind at 1 2 3, M_bind, getThis; simpl. fold command.
  destruct (send command h) as [[r|e|] h1] eqn:Hrun; simpl in *.
  - destruct (Hrest r h1) as [_ [events Hevents]]. exists events.
    unfold rest, mbind at 1 2, M_bind in Hevents. unfold mbind, M_bind.
    destruct (waitLoop fuel r h1) as [[final|e|] h2]; simpl in *;
      rewrite Hevents, Hsend, <-app_assoc; done.
  - by exists [].
  - by exists [].
Qed.

(** C2.  When the service reports the states of [pending], all QUEUED
    or RUNNING, and then a terminal state, [waitForSuccessfulResult]
    fetches the status once per reported state up to and including the
    first terminal one, waiting [sleepMs] before each re-fetch (no wait
    is made when [sleepMs] is not positive), and stops there; it returns
    normally exactly when that state is 'SUCCEEDED' and otherwise throws
    the error whose message embeds the state.  In [processQuery] a
    terminal state other than 'SUCCEEDED' ends the run with that error,
    with no results fetch and no consumer call. *)
Theorem waitForSuccessfulResult_spec h fuel pending final rest :
  expectedWaitForSuccessfulResults (athenaClient (this h)) = pending ++ final :: rest →
  Forall pendingState pending →
  terminalState final →
  length pending ≤ fuel →
  waitForSuccessfulResult fuel h
  = (if decide (getState final = Some "SUCCEEDED") then Returned ()
     else Threw (UnsupportedResponseState (getState final)),
     updated h (setWaitForSuccessfulResults rest (athenaClient (this h)))
       (QueryExecutionId (this h)) (consumer h)
       (Send (GetQueryExecutionCommand (QueryExecutionId (this h)))
        :: repollEvents (QueryExecutionId (this h)) (sleepMs (this h)) (length pending)))
  ∧ unsupportedResponseStateMessage (getState final)
    = "Unsupported response state, " +:+ template (getState final)
        +:+ ", stateResponse=[object Object]"
  ∧ ∀ response q id,
      QueryExecutionId (this h) = None →
      expectedStartQueries (athenaClient (this h)) = response :: q →
      start_QueryExecutionId response = Some id →
      let polled :=
        updated h
          (setWaitForSuccessfulResults rest
             (setStartQueries q (athenaClient (this h))))
          (Some id) (consumer h)
          (Send (StartQueryExecutionCommand (query (this h)))
           :: Send (GetQueryExecutionCommand (Some id))
           :: repollEvents (Some id) (sleepMs (this h)) (length pending)) in
      processQuery fuel h
      = if decide (getState final = Some "SUCCEEDED")
        then getResultsInBatches fuel polled
        else (Threw (UnsupportedResponseState (getState final)), polled).
Proof.
  intros Hq Hpend Hfinal Hfuel. split; [|split].
  - by apply waitForSuccessfulResult_run.
  - done.
  - intros response q id Hfresh Hstart Hresp polled.
    rewrite (processQuery_submitted _ _ response q), Hresp by done.
    set (h1 := updated _ _ _ _ _).
    pose proof (waitForSuccessfulResult_run h1 fuel pending final rest) as Hrun.
    unfold mbind, M_bind. rewrite Hrun by done. clear Hrun.
    subst h1 polled. simpl. rewrite updated_updated. simpl.
    by case_decide.
Qed.

(** C7 (amended).  If the submission response has no handle (the field
    is [undefined]), the run fails with the submission error right after
    the submission: no status fetch, no results fetch, no consumer call.
    If it has a handle, whatever the string, the handle is recorded and
    the run goes on with polling, whose first act is a status fetch for
    that handle. *)
Theorem processQuery_submission h fuel response q :
  QueryExecutionId (this h) = None →
  expectedStartQueries (athenaClient (this h)) = response :: q →
  match start_QueryExecutionId response with
  | None =>
      processQuery fuel h
      = (Threw (ExpectedIdAfterStartQuery response),
         updated h (setStartQueries q (athenaClient (this h))) None (consumer h)
           [Send (StartQueryExecutionCommand (query (this h)))])
  | Some id =>
      processQuery fuel h
      = (waitForSuccessfulResult fuel;; getResultsInBatches fuel)
          (updated h (setStartQueries q (athenaClient (this h))) (Some id) (consumer h)
             [Send (StartQueryExecutionCommand (query (this h)))])
      ∧ QueryExecutionId (this (processQuery fuel h).2) = Some id
      ∧ ∃ events,
          trace (processQuery fuel h).2
          = trace h ++ Send (StartQueryExecutionCommand (query (this h)))
                    :: Send (GetQueryExecutionCommand (Some id)) :: events
  end.
Proof.
  intros Hfresh Hq.
  pose proof (processQuery_submitted h fuel response q Hfresh Hq) as Hrun.
  destruct (start_QueryExecutionId response) as [id|] eqn:Hresp; [|done].
  split; [done|]. split.
  - by apply (processQuery_keeps_handle h fuel response q).
  - rewrite Hrun.
    destruct (waitForSuccessfulResult_begins
                (updated h (setStartQueries q (athenaClient (this h))) (Some id)
                   (consumer h) [Send (StartQueryExecutionCommand (query (this h)))])
                fuel (getResultsInBatches fuel)) as [events Hevents].
    { apply steady_getResultsInBatches. }
    exists events. rewrite Hevents. simpl. by rewrite <-app_assoc.
Qed.

End Run.

(** ** Pages, header and batches *)

Section Retrieval.

Context {B : Type}.
Implicit Types (h : Heap B) (fuel : nat).
Implicit Types (pages : list GetQueryResultsCommandOutput).
Implicit Types (batches : list (list JsonValue)).

Lemma headerFieldNames_cells response :
  headerFieldNames (output_ResultSet response ≫= Rows)
  = imap headerFieldName (headerCells response).
Proof.
  unfold headerFieldNames, headerCells, pageRows.
  destruct (output_ResultSet response ≫= Rows) as [[|header rows]|]; simpl; try done.
  by destruct (Data header).
Qed.

(** C4.  On the first page, the field names are derived from the cells
    of row 0, one name per cell and in the order of the cells: the
    cell's text, or [col<index>] (0-based) when the cell has none; row 0
    is left out of the rows that are converted.  On any other page row 0
    is converted like the rest, under the field names passed in. *)
Theorem getResults_header h input ignored fieldNames response q :
  expectedGetResults (athenaClient (this h)) = response :: q →
  statusOk response →
  ∃ names,
    length names = length (headerCells response)
    ∧ (∀ i cell, headerCells response !! i = Some cell →
         names !! i = Some (match VarCharValue cell with
                            | Some text => text
                            | None => "col" +:+ pretty i
                            end))
    ∧ getResults input true ignored h
      = (match fromRowsToJsonValues (drop 1 (pageRows response)) names with
         | inr data => Returned {| result_Data := data;
                                   result_NextToken := output_NextToken response;
                                   result_fieldNames := names |}
         | inl e => Threw e
         end,
         updated h (setGetResults q (athenaClient (this h)))
           (QueryExecutionId (this h)) (consumer h)
           [Send (GetQueryResultsCommand input)])
    ∧ getResults input false fieldNames h
      = (match fromRowsToJsonValues (pageRows response) fieldNames with
         | inr data => Returned {| result_Data := data;
                                   result_NextToken := output_NextToken response;
                                   result_fieldNames := fieldNames |}
         | inl e => Threw e
         end,
         updated h (setGetResults q (athenaClient (this h)))
           (QueryExecutionId (this h)) (consumer h)
           [Send (GetQueryResultsCommand input)]).
Proof.
  intros Hq Hok.
  exists (headerFieldNames (output_ResultSet response ≫= Rows)).
  split; [|split; [|split]].
  - by rewrite headerFieldNames_cells, length_imap.
  - intros i cell Hcell.
    by rewrite headerFieldNames_cells, list_lookup_imap, Hcell.
  - by rewrite (getResults_run _ _ _ _ response q).
  - by rewrite (getResults_run _ _ _ _ response q).
Qed.

Lemma converted_length fieldNames pages : ∀ isFirst batches,
  converted fieldNames isFirst pages batches → length pages = length batches.
Proof.
  induction pages as [|page pages IH]; intros isFirst [|batch batches]; simpl; try done.
  intros [_ Hconv]. f_equal. by eapply IH.
Qed.

Lemma batchesIn_app (events1 events2 : list Event) :
  batchesIn (events1 ++ events2) = batchesIn events1 ++ batchesIn events2.
Proof. apply omap_app. Qed.

Lemma batchesIn_pageEvents id pages : ∀ token batches,
  length pages = length batches →
  batchesIn (pageEvents id token pages batches) = batches.
Proof.
  induction pages as [|page pages IH]; intros token [|batch batches]; simpl; try done.
  intros [= Hlen]. unfold batchesIn in *. simpl. f_equal. by apply IH.
Qed.

Lemma batchesIn_repollEvents id ms n : batchesIn (repollEvents id ms n) = [].
Proof.
  induction n as [|n IH]; simpl; [done|].
  rewrite batchesIn_app.
  change (batchesIn (Send (GetQueryExecutionCommand id) :: repollEvents id ms n))
    with (batchesIn (repollEvents id ms n)).
  rewrite IH, app_nil_r. by case_decide.
Qed.

(** The loop over pages linked by their tokens, down to the page that
    carries none. *)
Lemma batchLoop_linked rest fieldNames others : ∀ h fuel previous batches,
  linked (previous :: others) →
  expectedGetResults (athenaClient (this h)) = others ++ rest →
  Forall statusOk others →
  converted fieldNames false others batches →
  accepts (batchProcessor (this h)) batches (consumer h) →
  length others ≤ fuel →
  batchLoop fuel fieldNames (output_NextToken previous) h
  = (Returned (),
     updated h (setGetResults rest (athenaClient (this h)))
       (QueryExecutionId (this h))
       (deliverAll (batchProcessor (this h)) batches (consumer h))
       (pageEvents (QueryExecutionId (this h)) (output_NextToken previous)
          others batches)).
Proof.
  induction others as [|page others IH];
    intros h fuel previous batches Hlinked Hq Hok Hconv Hacc Hfuel.
  - destruct batches; [|done]. simpl in *.
    by rewrite Hlinked, batchLoop_done, <-Hq, setGetResults_same, updated_same.
  - destruct batches as [|batch batches]; [done|].
    destruct Hlinked as [[token Htoken] Hlinked].
    simpl in Hq, Hconv, Hacc, Hfuel.
    destruct Hconv as [Hbatch Hconv], Hacc as [Hacc1 Hacc].
    apply Forall_cons in Hok as [Hok1 Hok].
    destruct fuel as [|fuel]; [lia|].
    rewrite Htoken, (batchLoop_step _ _ _ _ page (others ++ rest) batch) by done.
    rewrite callBatchProcessor_accepted by done.
    rewrite (IH _ fuel page batches); [|done..|lia].
    simpl. by rewrite !updated_updated.
Qed.

(** C5.  For pages linked by continuation tokens, all fetched with
    status 'ok', convertible and accepted by the consumer:
    [getResultsInBatches] requests them in order with the same handle,
    the first without a token and each later one with the token of the
    page before it; hands each page's batch to the consumer before the
    next request; converts every page after the first under the field
    names of the first page's header, row 0 included; and returns after
    the page that carries no token, the pages queued behind it left
    alone.  The batches delivered, in order, are the pages' records. *)
Theorem getResultsInBatches_all_pages h fuel pages rest batches :
  expectedGetResults (athenaClient (this h)) = pages ++ rest →
  Forall statusOk pages →
  linked pages →
  converted (firstPageFieldNames pages) true pages batches →
  accepts (batchProcessor (this h)) batches (consumer h) →
  length pages ≤ S fuel →
  getResultsInBatches fuel h
  = (Returned (),
     updated h (setGetResults rest (athenaClient (this h)))
       (QueryExecutionId (this h))
       (deliverAll (batchProcessor (this h)) batches (consumer h))
       (pageEvents (QueryExecutionId (this h)) None pages batches))
  ∧ batchesIn (pageEvents (QueryExecutionId (this h)) None pages batches) = batches.
Proof.
  intros Hq Hok Hlinked Hconv Hacc Hfuel.
  split; [|by eapply batchesIn_pageEvents, converted_length].
  destruct pages as [|first others]; [done|].
  destruct batches as [|batch batches]; [done|].
  simpl in Hq, Hconv, Hacc, Hfuel. destruct Hconv as [Hbatch Hconv], Hacc as [Hacc1 Hacc].
  apply Forall_cons in Hok as [Hok1 Hok].
  rewrite (getResultsInBatches_first _ _ first (others ++ rest) batch) by done.
  rewrite callBatchProcessor_accepted by done.
  rewrite (batchLoop_linked rest _ others _ _ first batches); [|done..|lia].
  simpl. by rewrite !updated_updated.
Qed.

(** C6.  A page fetched with status 'ok' that has no data row (no
    [ResultSet], no [Rows], an empty [Rows], or on the first page only
    the header row) yields the empty batch without any error, and the
    consumer is called with that empty batch; unless the consumer itself
    rejects, the run goes on with the loop. *)
Theorem empty_page_is_delivered h fuel isFirst fieldNames token page q :
  expectedGetResults (athenaClient (this h)) = page :: q →
  statusOk page →
  dataRows isFirst page = [] →
  let input := {| input_QueryExecutionId := QueryExecutionId (this h);
                  input_NextToken := if isFirst then None else Some token |} in
  let fieldNames' :=
    if isFirst then headerFieldNames (output_ResultSet page ≫= Rows) else fieldNames in
  let delivered :=
    updated h (setGetResults q (athenaClient (this h))) (QueryExecutionId (this h))
      (batchProcessor (this h) [] (consumer h)).2
      [Send (GetQueryResultsCommand input); BatchProcessorCall []] in
  getResults input isFirst fieldNames h
  = (Returned {| result_Data := [];
                 result_NextToken := output_NextToken page;
                 result_fieldNames := fieldNames' |},
     updated h (setGetResults q (athenaClient (this h))) (QueryExecutionId (this h))
       (consumer h) [Send (GetQueryResultsCommand input)])
  ∧ (if isFirst then getResultsInBatches fuel h
     else batchLoop (S fuel) fieldNames (Some token) h)
    = match (batchProcessor (this h) [] (consumer h)).1 with
      | Some e => (Threw e, delivered)
      | None => batchLoop fuel fieldNames' (output_NextToken page) delivered
      end.
Proof.
  intros Hq Hok Hrows input fieldNames' delivered. split.
  - rewrite (getResults_run _ _ _ _ page q) by done.
    cbv beta iota zeta. by rewrite Hrows.
  - assert (fromRowsToJsonValues (dataRows isFirst page) fieldNames' = inr []) as Hbatch.
    { by rewrite Hrows. }
    subst input fieldNames' delivered. destruct isFirst.
    + rewrite (getResultsInBatches_first _ _ page q []) by done.
      destruct (batchProcessor (this h) [] (consumer h)).1 as [e|] eqn:Hcall.
      * rewrite (callBatchProcessor_rejected _ _ _ e) by done.
        simpl. by rewrite updated_updated.
      * rewrite callBatchProcessor_accepted by done.
        simpl. by rewrite updated_updated.
    + rewrite (batchLoop_step _ _ _ _ page q []) by done.
      destruct (batchProcessor (this h) [] (consumer h)).1 as [e|] eqn:Hcall.
      * rewrite (callBatchProcessor_rejected _ _ _ e) by done.
        simpl. by rewrite updated_updated.
      * rewrite callBatchProcessor_accepted by done.
        simpl. by rewrite updated_updated.
Qed.

(** The pages fetched and delivered before the one at which a run stops:
    [getResultsInBatches] arrives at the loop turn that fetches the next
    page. *)
Lemma getResultsInBatches_pages h fuel first more rest batches :
  expectedGetResults (athenaClient (this h)) = (first :: more) ++ rest →
  Forall statusOk (first :: more) →
  Forall (λ page, is_Some (output_NextToken page)) (first :: more) →
  converted (firstPageFieldNames (first :: more)) true (first :: more) batches →
  accepts (batchProcessor (this h)) batches (consumer h) →
  getResultsInBatches (length more + fuel) h
  = batchLoop fuel (firstPageFieldNames (first :: more))
      (lastToken None (first :: more))
      (updated h (setGetResults rest (athenaClient (this h)))
         (QueryExecutionId (this h))
         (deliverAll (batchProcessor (this h)) batches (consumer h))
         (pageEvents (QueryExecutionId (this h)) None (first :: more) batches)).
Proof.
  intros Hq Hok Htok Hconv Hacc.
  destruct batches as [|batch batches]; [done|].
  simpl in Hq, Hconv, Hacc. destruct Hconv as [Hbatch Hconv], Hacc as [Hacc1 Hacc].
  apply Forall_cons in Hok as [Hok1 Hok], Htok as [[token Htok1] Htok].
  rewrite (getResultsInBatches_first _ _ first (more ++ rest) batch) by done.
  rewrite callBatchProcessor_accepted by done.
  rewrite Htok1, (batchLoop_pages rest _ more _ fuel token batches) by done.
  simpl. rewrite !updated_updated.
  assert (lastToken None (first :: more) = lastToken (Some token) more) as ->;
    [|by rewrite Htok1].
  unfold lastToken. rewrite last_cons. destruct (last more); simpl; by rewrite ?Htok1.
Qed.

Lemma lastToken_is_Some token pages :
  pages ≠ [] →
  Forall (λ page, is_Some (output_NextToken page)) pages →
  is_Some (lastToken token pages).
Proof.
  intros Hne Htok. unfold lastToken.
  destruct (last pages) as [page|] eqn:Hlast.
  - simpl. rewrite Forall_forall in Htok. apply Htok.
    apply last_Some in Hlast as [front ->]. set_solver.
  - by apply last_None in Hlast.
Qed.

(** The pages of a run up to the page [page] at which something happens:
    [delivered] were fetched, converted and accepted, and the run is
    about to fetch [page].  What [getResultsInBatches] does next is what
    the first fetch does when nothing was delivered, and what a turn of
    the loop does otherwise. *)
Lemma getResultsInBatches_reaches h fuel delivered batches page rest :
  expectedGetResults (athenaClient (this h)) = delivered ++ page :: rest →
  Forall statusOk delivered →
  Forall (λ page, is_Some (output_NextToken page)) delivered →
  converted (firstPageFieldNames delivered) true delivered batches →
  accepts (batchProcessor (this h)) batches (consumer h) →
  length delivered ≤ fuel →
  ∃ h' (k : GetResultOutput → M B ()),
    getResultsInBatches fuel h
    = (results ← getResults
         {| input_QueryExecutionId := QueryExecutionId (this h);
            input_NextToken := lastToken None delivered |}
         (bool_decide (delivered = []))
         (firstPageFieldNames delivered);
       callBatchProcessor (result_Data results);; k results) h'
    ∧ h' = updated h (setGetResults (page :: rest) (athenaClient (this h)))
             (QueryExecutionId (this h))
             (deliverAll (batchProcessor (this h)) batches (consumer h))
             (pageEvents (QueryExecutionId (this h)) None delivered batches).
Proof.
  intros Hq Hok Htok Hconv Hacc Hfuel.
  destruct delivered as [|first more].
  - destruct batches; [|done]. simpl in *.
    eexists h, _. split.
    + unfold getResultsInBatches.
      rewrite (bind_returned _ _ h (this h) h) by done. reflexivity.
    + by rewrite <-Hq, setGetResults_same, updated_same.
  - destruct (lastToken_is_Some None (first :: more)) as [token Hlast]; [done..|].
    simpl in Hfuel.
    replace fuel with (length more + S (fuel - S (length more))) by lia.
    rewrite (getResultsInBatches_pages _ _ first more (page :: rest) batches) by done.
    rewrite Hlast. rewrite bool_decide_eq_false_2 by done.
    eexists _, _. split; [|reflexivity].
    by rewrite batchLoop_unfold.
Qed.

(** C8.  In a run that reached retrieval, a page fetch answered with a
    status other than 200, be it the first fetch or one that follows
    pages already delivered, ends the run with the retrieval error that
    carries the response: the consumer is not called for that page and
    nothing further is fetched.  When it is the first fetch, the
    consumer was never called. *)
Theorem processQuery_retrieval_failure h fuel id pending delivered batches page rest :
  reachesRetrieval h id pending →
  length pending ≤ fuel →
  expectedGetResults (athenaClient (this h)) = delivered ++ page :: rest →
  Forall statusOk delivered →
  Forall (λ page, is_Some (output_NextToken page)) delivered →
  converted (firstPageFieldNames delivered) true delivered batches →
  accepts (batchProcessor (this h)) batches (consumer h) →
  length delivered ≤ fuel →
  ¬ statusOk page →
  processQuery fuel h
  = (Threw (GetQueryResultsFailed page),
     updated (atRetrieval h id pending)
       (setGetResults rest (athenaClient (this (atRetrieval h id pending))))
       (Some id)
       (deliverAll (batchProcessor (this h)) batches (consumer h))
       (pageEvents (Some id) None delivered batches
        ++ [Send (GetQueryResultsCommand
                    {| input_QueryExecutionId := Some id;
                       input_NextToken := lastToken None delivered |})]))
  ∧ (delivered = [] →
     consumer (processQuery fuel h).2 = consumer h
     ∧ batchesIn (trace (processQuery fuel h).2) = batchesIn (trace h)).
Proof.
  intros Hreach Hpoll Hq Hok Htok Hconv Hacc Hfuel Hbad.
  assert (processQuery fuel h
          = (Threw (GetQueryResultsFailed page),
             updated (atRetrieval h id pending)
               (setGetResults rest (athenaClient (this (atRetrieval h id pending))))
               (Some id)
               (deliverAll (batchProcessor (this h)) batches (consumer h))
               (pageEvents (Some id) None delivered batches
                ++ [Send (GetQueryResultsCommand
                            {| input_QueryExecutionId := Some id;
                               input_NextToken := lastToken None delivered |})])))
    as Hrun.
  { rewrite (processQuery_retrieval _ _ id pending) by done.
    destruct (getResultsInBatches_reaches (atRetrieval h id pending) fuel
                delivered batches page rest)
      as (h' & k & -> & ->); [done..|].
    erewrite bind_threw; last first.
    { by apply (getResults_failed _ _ _ _ page rest). }
    by rewrite updated_updated. }
  split; [done|]. intros ->. destruct batches; [|done].
  rewrite Hrun. split; [done|]. simpl.
  rewrite !batchesIn_app.
  change (batchesIn (Send ?c :: ?l)) with (batchesIn l).
  change (batchesIn (Send ?c :: ?l)) with (batchesIn l).
  by rewrite batchesIn_repollEvents, !app_nil_r.
Qed.

(** C10.  In a run that reached retrieval, if the consumer rejects the
    batch of some page, [processQuery] rejects with the consumer's own
    error; no page after that one is requested, and the calls made for
    the pages before it stand: the consumer's state is the one those
    calls and the rejected call left. *)
Theorem processQuery_consumer_rejection h fuel id pending delivered batches
    page batch rest e :
  reachesRetrieval h id pending →
  length pending ≤ fuel →
  expectedGetResults (athenaClient (this h)) = delivered ++ page :: rest →
  Forall statusOk delivered →
  Forall (λ page, is_Some (output_NextToken page)) delivered →
  converted (firstPageFieldNames delivered) true delivered batches →
  accepts (batchProcessor (this h)) batches (consumer h) →
  length delivered ≤ fuel →
  statusOk page →
  fromRowsToJsonValues (dataRows (bool_decide (delivered = [])) page)
    (firstPageFieldNames (delivered ++ [page])) = inr batch →
  (batchProcessor (this h) batch
     (deliverAll (batchProcessor (this h)) batches (consumer h))).1 = Some e →
  processQuery fuel h
  = (Threw e,
     updated (atRetrieval h id pending)
       (setGetResults rest (athenaClient (this (atRetrieval h id pending))))
       (Some id)
       (batchProcessor (this h) batch
          (deliverAll (batchProcessor (this h)) batches (consumer h))).2
       (pageEvents (Some id) None delivered batches
        ++ [Send (GetQueryResultsCommand
                    {| input_QueryExecutionId := Some id;
                       input_NextToken := lastToken None delivered |});
            BatchProcessorCall batch])).
Proof.
  intros Hreach Hpoll Hq Hok Htok Hconv Hacc Hfuel Hpage Hbatch Hrej.
  rewrite (processQuery_retrieval _ _ id pending) by done.
  destruct (getResultsInBatches_reaches (atRetrieval h id pending) fuel
              delivered batches page rest)
    as (h' & k & -> & ->); [done..|].
  assert (firstPageFieldNames (delivered ++ [page])
          = if bool_decide (delivered = [])
            then headerFieldNames (output_ResultSet page ≫= Rows)
            else firstPageFieldNames delivered) as Hnames.
  { by destruct delivered. }
  erewrite bind_returned; last first.
  { rewrite (getResults_run _ _ _ _ page rest) by done.
    cbv beta iota zeta. by rewrite <-Hnames, Hbatch. }
  rewrite (callBatchProcessor_rejected _ _ _ e) by done.
  simpl. by rewrite !updated_updated.
Qed.

End Retrieval.

(** ** The scenarios, run *)

Section Scenarios.

(** The tests 'simple success' and 'multiple calls' end with every
    queue of the client consumed and the records in [results]. *)
Example test_multiple_calls :
  processQuery 5 (heapOf multipleCalls pushAll [])
  = (Returned (),
     updated (heapOf multipleCalls pushAll [])
       {| expectedStartQueries := [];
          expectedWaitForSuccessfulResults := [];
          expectedGetResults := [] |}
       (Some "abc-xyz")
       [person "John" "Smith"; person "Maria" "Rodriguez";
        person "Mary" "Johnson"; person "Joseph" "Jones"]
       [Send (StartQueryExecutionCommand testQuery);
        Send (GetQueryExecutionCommand (Some "abc-xyz"));
        Sleep 1;
        Send (GetQueryExecutionCommand (Some "abc-xyz"));
        Sleep 1;
        Send (GetQueryExecutionCommand (Some "abc-xyz"));
        Send (GetQueryResultsCommand {| input_QueryExecutionId := Some "abc-xyz";
                                        input_NextToken := None |});
        BatchProcessorCall [person "John" "Smith"];
        Send (GetQueryResultsCommand {| input_QueryExecutionId := Some "abc-xyz";
                                        input_NextToken := Some "NextResult1" |});
        BatchProcessorCall [person "Maria" "Rodriguez"; person "Mary" "Johnson"];
        Send (GetQueryResultsCommand {| input_QueryExecutionId := Some "abc-xyz";
                                        input_NextToken := Some "NextResult2" |});
        BatchProcessorCall [person "Joseph" "Jones"]]).
Proof. vm_compute. reflexivity. Qed.

(** With too small a bound on the loops the model reports it, and does
    not pass it for an outcome of the program. *)
Example test_out_of_fuel :
  (processQuery 1 (heapOf multipleCalls pushAll [])).1 = OutOfFuel.
Proof. vm_compute. reflexivity. Qed.

Example headerFieldNames_synthesized :
  headerFieldNames (Some [ {| Data := Some [cell "a"; {| VarCharValue := None |};
                                            {| VarCharValue := None |}] |} ])
  = ["a"; "col1"; "col2"].
Proof. reflexivity. Qed.

Example unsupportedResponseStateMessage_failed :
  unsupportedResponseStateMessage (Some "FAILED")
  = "Unsupported response state, FAILED, stateResponse=[object Object]".
Proof. reflexivity. Qed.

(** *** C1 *)

(** C1 fails as stated: a first run whose submission is answered
    without a handle leaves the instance usable, and the second
    [processQuery] submits the query again and runs to the end. *)
Lemma processQuery_reusable_after_missing_handle :
  (processQuery 5 (heapOf noHandleThenHandle pushAll [])).1
  = Threw (ExpectedIdAfterStartQuery (started None))
  ∧ (processQuery 5 (processQuery 5 (heapOf noHandleThenHandle pushAll [])).2).1
    = Returned ()
  ∧ trace (processQuery 5 (processQuery 5 (heapOf noHandleThenHandle pushAll [])).2).2
    = [Send (StartQueryExecutionCommand testQuery);
       Send (StartQueryExecutionCommand testQuery);
       Send (GetQueryExecutionCommand (Some "abc-xyz"));
       Send (GetQueryResultsCommand {| input_QueryExecutionId := Some "abc-xyz";
                                       input_NextToken := None |});
       BatchProcessorCall []].
Proof. vm_compute. done. Qed.

Lemma processQuery_single_use_witness :
  (processQuery 5 (heapOf failing pushAll [])).1
  = Threw (UnsupportedResponseState (Some "FAILED"))
  ∧ QueryExecutionId (this (processQuery 5 (heapOf failing pushAll [])).2)
    = Some "abc-xyz"
  ∧ processQuery 5 (processQuery 5 (heapOf failing pushAll [])).2
    = (Threw CanOnlyBeUsedOnce, (processQuery 5 (heapOf failing pushAll [])).2).
Proof.
  split; [vm_compute; reflexivity|].
  exact (processQuery_single_use (heapOf failing pushAll []) 5 5
           (started (Some "abc-xyz")) [] "abc-xyz" eq_refl eq_refl eq_refl).
Defined.

(** *** C2 *)

Lemma waitForSuccessfulResult_spec_witness :
  processQuery 5 (heapOf failing pushAll [])
  = (Threw (UnsupportedResponseState (Some "FAILED")),
     updated (heapOf failing pushAll [])
       {| expectedStartQueries := [];
          expectedWaitForSuccessfulResults := [];
          expectedGetResults := [page3] |}
       (Some "abc-xyz") []
       [Send (StartQueryExecutionCommand testQuery);
        Send (GetQueryExecutionCommand (Some "abc-xyz"));
        Sleep 1;
        Send (GetQueryExecutionCommand (Some "abc-xyz"))]).
Proof.
  assert (Forall pendingState [stateOf "QUEUED"]) as Hpending.
  { constructor; [by left|constructor]. }
  assert (terminalState (stateOf "FAILED")) as Hfinal.
  { split; by_computation. }
  destruct (waitForSuccessfulResult_spec (heapOf failing pushAll []) 5
              [stateOf "QUEUED"] (stateOf "FAILED") [] eq_refl Hpending Hfinal
              ltac:(simpl; lia)) as (_ & _ & Hrun).
  exact (Hrun (started (Some "abc-xyz")) [] "abc-xyz" eq_refl eq_refl eq_refl).
Defined.

(** *** C3 *)

(** C3 fails as stated: under a header whose only cell is the empty
    string, a row with one value is not longer than the field names and
    is refused all the same. *)
Lemma fromRowsToJsonValues_refuses_empty_name :
  headerFieldNames (Some [rowOf [EmptyString]; rowOf ["John"]]) = [EmptyString]
  ∧ fromRowsToJsonValues [rowOf ["John"]] [EmptyString] = inl HeaderRowIsNotLongEnough
  ∧ ¬ Exists (λ row, length [EmptyString] < rowLength row) [rowOf ["John"]].
Proof.
  split; [done|]. split; [done|].
  intros [Hlong|Hnone]%Exists_cons.
  - vm_compute in Hlong. lia.
  - by apply Exists_nil in Hnone.
Qed.

Lemma fromRowsToJsonValues_throws_iff_witness :
  Forall (λ name, name ≠ EmptyString) ["first_name"; "last_name"]
  ∧ fromRowsToJsonValues [rowOf ["John"; "Smith"]; rowOf ["Mary"; "Johnson"; "42"]]
      ["first_name"; "last_name"]
    = inl HeaderRowIsNotLongEnough.
Proof.
  assert (Forall (λ name, name ≠ EmptyString) ["first_name"; "last_name"]) as Hnames.
  { by_computation. }
  split; [exact Hnames|].
  apply (proj1 (fromRowsToJsonValues_throws_iff
                  [rowOf ["John"; "Smith"]; rowOf ["Mary"; "Johnson"; "42"]]
                  ["first_name"; "last_name"] Hnames)).
  apply Exists_cons_tl, Exists_cons_hd. vm_compute. lia.
Defined.

(** *** C4 *)

Lemma getResults_header_witness :
  (getResults firstRequest true []
     (submitted (heapOf anonymous pushAll []) "abc-xyz")).1
  = Returned {| result_Data := [ <["col1" := Some "Smith"]>
                                   (<["first_name" := Some "John"]> ∅) ];
                result_NextToken := None;
                result_fieldNames := ["first_name"; "col1"] |}.
Proof.
  destruct (getResults_header (submitted (heapOf anonymous pushAll []) "abc-xyz")
              firstRequest [] [] anonymousColumn [] eq_refl eq_refl)
    as (names & Hlength & Hnames & Hfirst & _).
  pose proof (Hnames 0 _ eq_refl) as Hname0.
  pose proof (Hnames 1 _ eq_refl) as Hname1.
  destruct names as [|name0 [|name1 [|name2 names]]]; try discriminate Hlength.
  injection Hname0 as ->. injection Hname1 as ->.
  rewrite Hfirst. vm_compute. reflexivity.
Defined.

(** *** C5 *)

Lemma getResultsInBatches_all_pages_witness :
  getResultsInBatches 2 (submitted (heapOf multipleCalls pushAll []) "abc-xyz")
  = (Returned (),
     updated (submitted (heapOf multipleCalls pushAll []) "abc-xyz")
       (setGetResults [] multipleCalls) (Some "abc-xyz")
       [person "John" "Smith"; person "Maria" "Rodriguez";
        person "Mary" "Johnson"; person "Joseph" "Jones"]
       [Send (GetQueryResultsCommand firstRequest);
        BatchProcessorCall [person "John" "Smith"];
        Send (GetQueryResultsCommand {| input_QueryExecutionId := Some "abc-xyz";
                                        input_NextToken := Some "NextResult1" |});
        BatchProcessorCall [person "Maria" "Rodriguez"; person "Mary" "Johnson"];
        Send (GetQueryResultsCommand {| input_QueryExecutionId := Some "abc-xyz";
                                        input_NextToken := Some "NextResult2" |});
        BatchProcessorCall [person "Joseph" "Jones"]]).
Proof.
  refine (proj1 (getResultsInBatches_all_pages
                   (submitted (heapOf multipleCalls pushAll []) "abc-xyz") 2
                   [page1; page2; page3] []
                   [[person "John" "Smith"];
                    [person "Maria" "Rodriguez"; person "Mary" "Johnson"];
                    [person "Joseph" "Jones"]] eq_refl _ _ _ _ _)).
  - repeat constructor.
  - simpl. split; [by eexists|]. split; [by eexists|]. reflexivity.
  - simpl. repeat split; vm_compute; reflexivity.
  - simpl. repeat split.
  - simpl. lia.
Defined.

(** *** C6 *)

Lemma empty_page_is_delivered_witness :
  getResultsInBatches 0 (submitted (heapOf emptyHandle pushAll []) "abc-xyz")
  = (Returned (),
     updated (submitted (heapOf emptyHandle pushAll []) "abc-xyz")
       (setGetResults [] emptyHandle) (Some "abc-xyz") []
       [Send (GetQueryResultsCommand firstRequest); BatchProcessorCall []]).
Proof.
  exact (proj2 (empty_page_is_delivered
                  (submitted (heapOf emptyHandle pushAll []) "abc-xyz") 0 true [] "unused"
                  headerOnly [] eq_refl eq_refl eq_refl)).
Defined.

(** *** C7 *)

(** C7 fails as stated: a submission answered with the empty string as
    handle raises no submission error; the status and the results are
    fetched with that handle and the consumer is called. *)
Lemma processQuery_accepts_empty_handle :
  processQuery 5 (heapOf emptyHandle pushAll [])
  = (Returned (),
     updated (heapOf emptyHandle pushAll [])
       {| expectedStartQueries := [];
          expectedWaitForSuccessfulResults := [];
          expectedGetResults := [] |}
       (Some EmptyString) []
       [Send (StartQueryExecutionCommand testQuery);
        Send (GetQueryExecutionCommand (Some EmptyString));
        Send (GetQueryResultsCommand {| input_QueryExecutionId := Some EmptyString;
                                        input_NextToken := None |});
        BatchProcessorCall []]).
Proof. vm_compute. reflexivity. Qed.

Lemma processQuery_submission_witness :
  processQuery 5 (heapOf noHandleThenHandle pushAll [])
  = (Threw (ExpectedIdAfterStartQuery (started None)),
     updated (heapOf noHandleThenHandle pushAll [])
       (setStartQueries [started (Some "abc-xyz")] noHandleThenHandle)
       None []
       [Send (StartQueryExecutionCommand testQuery)]).
Proof.
  exact (processQuery_submission (heapOf noHandleThenHandle pushAll []) 5
           (started None) [started (Some "abc-xyz")] eq_refl eq_refl).
Defined.

(** *** C8 *)

Lemma processQuery_retrieval_failure_witness :
  processQuery 5 (heapOf secondPageFails pushAll [])
  = (Threw (GetQueryResultsFailed failedPage),
     updated (heapOf secondPageFails pushAll [])
       {| expectedStartQueries := [];
          expectedWaitForSuccessfulResults := [];
          expectedGetResults := [page3] |}
       (Some "abc-xyz")
       [person "John" "Smith"]
       [Send (StartQueryExecutionCommand testQuery);
        Send (GetQueryExecutionCommand (Some "abc-xyz"));
        Send (GetQueryResultsCommand firstRequest);
        BatchProcessorCall [person "John" "Smith"];
        Send (GetQueryResultsCommand {| input_QueryExecutionId := Some "abc-xyz";
                                        input_NextToken := Some "NextResult1" |})]).
Proof.
  refine (proj1 (processQuery_retrieval_failure
                   (heapOf secondPageFails pushAll []) 5 "abc-xyz" []
                   [page1] [[person "John" "Smith"]] failedPage [page3]
                   _ _ eq_refl _ _ _ _ _ _)).
  - repeat split. constructor.
  - simpl. lia.
  - repeat constructor.
  - repeat constructor. by eexists.
  - simpl. repeat split; vm_compute; reflexivity.
  - simpl. repeat split.
  - simpl. lia.
  - intros Hok. discriminate Hok.
Defined.

(** *** C9 *)



(** *** C10 *)

Lemma processQuery_consumer_rejection_witness :
  processQuery 5 (heapOf multipleCalls rejectSecond 0)
  = (Threw (Rejected "no more"),
     updated (heapOf multipleCalls rejectSecond 0)
       {| expectedStartQueries := [];
          expectedWaitForSuccessfulResults := [];
          expectedGetResults := [page3] |}
       (Some "abc-xyz") 2
       [Send (StartQueryExecutionCommand testQuery);
        Send (GetQueryExecutionCommand (Some "abc-xyz"));
        Sleep 1;
        Send (GetQueryExecutionCommand (Some "abc-xyz"));
        Sleep 1;
        Send (GetQueryExecutionCommand (Some "abc-xyz"));
        Send (GetQueryResultsCommand firstRequest);
        BatchProcessorCall [person "John" "Smith"];
        Send (GetQueryResultsCommand {| input_QueryExecutionId := Some "abc-xyz";
                                        input_NextToken := Some "NextResult1" |});
        BatchProcessorCall [person "Maria" "Rodriguez"; person "Mary" "Johnson"]]).
Proof.
  refine (processQuery_consumer_rejection
            (heapOf multipleCalls rejectSecond 0) 5 "abc-xyz"
            [stateOf "QUEUED"; stateOf "RUNNING"]
            [page1] [[person "John" "Smith"]] page2
            [person "Maria" "Rodriguez"; person "Mary" "Johnson"] [page3]
            (Rejected "no more") _ _ eq_refl _ _ _ _ _ eq_refl _ eq_refl).
  - repeat split. constructor; [by left|]. constructor; [by right|]. constructor.
  - simpl. lia.
  - repeat constructor.
  - repeat constructor. by eexists.
  - simpl. repeat split; vm_compute; reflexivity.
  - simpl. repeat split.
  - simpl. lia.
  - vm_compute. reflexivity.
Defined.

End Scenarios.

(* ================================================================== *)
(** * Further properties *)

(** ** Row conversion, in general *)

Section ConversionInGeneral.

Implicit Types (fieldNames : list string) (data : list Datum) (row : Row).
Implicit Types (rows : list Row) (result : JsonValue).

(** X1.  Whatever the field names, the conversion of a list of rows
    throws 'Header row is not long enough.' exactly when some row has a
    value at an index where the field name is missing or is the empty
    string. *)
Theorem fromRowsToJsonValues_inl_iff rows fieldNames :
  fromRowsToJsonValues rows fieldNames = inl HeaderRowIsNotLongEnough
  ↔ Exists (λ row, ∃ i, i < rowLength row
                        ∧ (fieldNames !! i = None
                           ∨ fieldNames !! i = Some EmptyString)) rows.
Proof.
  induction rows as [|row rows IH]; simpl.
  - split; [done|]. by intros ?%Exists_nil.
  - rewrite Exists_cons, <-IH.
    assert (rowToJsonValue fieldNames row = inl HeaderRowIsNotLongEnough
            ↔ ∃ i, i < rowLength row
                   ∧ (fieldNames !! i = None ∨ fieldNames !! i = Some EmptyString))
      as <-.
    { unfold rowToJsonValue, rowLength. destruct (Data row) as [data|]; simpl.
      - by rewrite forEachData_inl_iff.
      - split; [done|]. intros (i & Hi & _). lia. }
    destruct (rowToJsonValue_cases fieldNames row) as [[result ->]| ->].
    + destruct (fromRowsToJsonValues_cases rows fieldNames)
        as [(records & -> & _)| ->].
      * split; [done|]. by intros [?|?].
      * split; [by right|done].
    + split; [by left|done].
Qed.

(** X2.  Conversion goes row by row: converting the rows of two lists
    put end to end gives the records of the first followed by those of
    the second, and throws when either conversion does.  Where the rows
    of a result are cut into pages does not change the records. *)
Theorem fromRowsToJsonValues_app rows1 rows2 fieldNames :
  fromRowsToJsonValues (rows1 ++ rows2) fieldNames
  = match fromRowsToJsonValues rows1 fieldNames,
          fromRowsToJsonValues rows2 fieldNames with
    | inr records1, inr records2 => inr (records1 ++ records2)
    | inl e, _ => inl e
    | inr _, inl e => inl e
    end.
Proof.
  induction rows1 as [|row rows1 IH]; simpl.
  - by destruct (fromRowsToJsonValues rows2 fieldNames).
  - destruct (rowToJsonValue fieldNames row) as [e|result]; [done|].
    rewrite IH.
    destruct (fromRowsToJsonValues rows1 fieldNames) as [e|records1]; [done|].
    by destruct (fromRowsToJsonValues rows2 fieldNames).
Qed.



Lemma headerFieldName_nonempty index (cell : Datum) :
  VarCharValue cell ≠ Some EmptyString → headerFieldName index cell ≠ EmptyString.
Proof.
  unfold headerFieldName. destruct (VarCharValue cell) as [text|]; [|done].
  intros Hne ->. done.
Qed.

Lemma fromRowsToJsonValues_fits rows fieldNames :
  Forall (λ name, name ≠ EmptyString) fieldNames →
  Forall (λ row, rowLength row ≤ length fieldNames) rows →
  ∃ records, fromRowsToJsonValues rows fieldNames = inr records
             ∧ length records = length rows.
Proof.
  intros Hnames. induction 1 as [|row rows Hrow Hrows IH]; simpl.
  - by eexists.
  - destruct (rowToJsonValue_cases fieldNames row) as [[result ->]|Hthrow].
    + destruct IH as (records & -> & Hlen). eexists. split; [done|].
      simpl. by rewrite Hlen.
    + apply rowToJsonValue_throws_iff in Hthrow; [lia|done].
Qed.

(** X4.  Under a header none of whose cells has a text, the field names
    are [col0], [col1], ...: every row with at most as many values as
    the header has cells converts, its record has one entry per value,
    and the [i]-th value is found under [col<i>]. *)
Theorem rowToJsonValue_anonymous_header cells rest row :
  Forall (λ cell, VarCharValue cell = None) cells →
  rowLength row ≤ length cells →
  ∃ result,
    rowToJsonValue (headerFieldNames (Some ({| Data := Some cells |} :: rest))) row
    = inr result
    ∧ size result = rowLength row
    ∧ ∀ i d, default [] (Data row) !! i = Some d →
             result !! ("col" +:+ pretty i) = Some (VarCharValue d).
Proof.
  intros Hcells Hlen. rewrite Forall_lookup in Hcells.
  assert (∀ i, i < length cells →
            headerFieldNames (Some ({| Data := Some cells |} :: rest)) !! i
            = Some ("col" +:+ pretty i)) as Hnames.
  { intros i Hi. unfold headerFieldNames. simpl. rewrite list_lookup_imap.
    destruct (lookup_lt_is_Some_2 cells i Hi) as [cell Hcell].
    rewrite Hcell. simpl. unfold headerFieldName. by rewrite (Hcells _ _ Hcell). }
  assert (length (headerFieldNames (Some ({| Data := Some cells |} :: rest)))
          = length cells) as Hlength.
  { unfold headerFieldNames. simpl. by rewrite length_imap. }
  set (names := headerFieldNames _) in *.
  unfold rowToJsonValue, rowLength in *.
  destruct (Data row) as [data|]; simpl in *.
  - destruct (forEachData_distinct names data 0 ∅)
      as (result & Hrun & Hsize & Hget & _).
    + simpl. lia.
    + rewrite drop_0. apply Forall_forall. intros name (i & Hi & Hlt)%elem_of_take.
      rewrite Hnames in Hi by lia. by injection Hi as <-.
    + rewrite drop_0. apply NoDup_alt. intros i j name Hi Hj.
      apply lookup_take_Some in Hi as [Hi Hilt], Hj as [Hj Hjlt].
      rewrite Hnames in Hi, Hj by lia.
      rewrite <-Hj in Hi. injection Hi as Hij. by apply (inj pretty).
    + done.
    + exists result. split; [done|]. split; [by rewrite Hsize, map_size_empty|].
      intros i d Hd. destruct (Hget i d Hd) as (name & Hname & Hvalue).
      simpl in Hname. rewrite Hnames in Hname; [by injection Hname as <-|].
      apply lookup_lt_Some in Hd. lia.
  - exists ∅. split; [done|]. split; [by rewrite map_size_empty|].
    intros i d. by rewrite lookup_nil.
Qed.

End ConversionInGeneral.

(** ** Invariants of the methods *)

Section MethodInvariants.

Context {B : Type}.
Implicit Types (h : Heap B) (fuel : nat) (id : option string) (ms : Z).
Implicit Types (processor : BatchProcessor B) (P : Event → Prop).

Lemma deliverAll_app processor (batches1 batches2 : list (list JsonValue)) (b : B) :
  deliverAll processor (batches1 ++ batches2) b
  = deliverAll processor batches2 (deliverAll processor batches1 b).
Proof.
  revert b. induction batches1 as [|batch batches1 IH]; intros b; simpl; [done|].
  apply IH.
Qed.

Lemma keeps_silent id ms processor P {A} (m : M B A) :
  (∀ h, ∃ c, (m h).2 = updated h c (QueryExecutionId (this h)) (consumer h) []) →
  keeps id ms processor P m.
Proof.
  intros Hm h Hsettled. destruct (Hm h) as [c ->]. split; [done|].
  exists []. by split; [|split].
Qed.

Lemma keeps_ret id ms processor P {A} (a : A) :
  keeps id ms processor P (mret a : M B A).
Proof.
  apply keeps_silent. intros h. exists (athenaClient (this h)).
  by rewrite updated_same.
Qed.

Lemma keeps_throw id ms processor P {A} e :
  keeps id ms processor P (throw e : M B A).
Proof.
  apply keeps_silent. intros h. exists (athenaClient (this h)).
  by rewrite updated_same.
Qed.

Lemma keeps_outOfFuel id ms processor P {A} :
  keeps id ms processor P (outOfFuel : M B A).
Proof.
  apply keeps_silent. intros h. exists (athenaClient (this h)).
  by rewrite updated_same.
Qed.

Lemma keeps_shift id ms processor P {A} name (get : AthenaClient → list A) set :
  keeps id ms processor P (shift name get set : M B A).
Proof.
  apply keeps_silent. intros h. unfold shift.
  destruct (get _) as [|x q].
  - exists (athenaClient (this h)). by rewrite updated_same.
  - eexists. unfold withClient, updated. simpl. by rewrite app_nil_r.
Qed.

Lemma keeps_bind id ms processor P {A A'} (m : M B A) (f : A → M B A') :
  keeps id ms processor P m →
  (∀ a, keeps id ms processor P (f a)) →
  keeps id ms processor P (m ≫= f).
Proof.
  intros Hm Hf h Hsettled. unfold mbind, M_bind.
  destruct (Hm h Hsettled) as (Hsettled1 & events1 & Htrace1 & Hall1 & Hconsumer1).
  destruct (m h) as [[a|e|] h1]; simpl in *; [|by eauto..].
  destruct (Hf a h1 Hsettled1) as (Hsettled2 & events2 & Htrace2 & Hall2 & Hconsumer2).
  split; [done|]. exists (events1 ++ events2).
  rewrite Htrace2, Htrace1, app_assoc. split; [done|].
  split; [by apply Forall_app|].
  by rewrite Hconsumer2, Hconsumer1, batchesIn_app, deliverAll_app.
Qed.

(** Reading [this]: what follows may rely on the settled fields. *)
Lemma keeps_getThis id ms processor P {A} (f : AthenaQuery B → M B A) :
  (∀ self, QueryExecutionId self = id → sleepMs self = ms →
           keeps id ms processor P (f self)) →
  keeps id ms processor P (getThis ≫= f).
Proof.
  intros Hf h Hsettled. pose proof Hsettled as (Hid & Hms & _).
  unfold mbind, M_bind, getThis. by apply Hf.
Qed.

Lemma keeps_emit id ms processor P e :
  P e → batchesIn [e] = [] →
  keeps id ms processor P (emit e : M B _).
Proof.
  intros He Hnone h Hsettled. split; [done|].
  exists [e]. split; [done|]. split; [by constructor|]. by rewrite Hnone.
Qed.

Lemma keeps_send id ms processor P command :
  P (Send command) →
  keeps id ms processor P (send command : M B _).
Proof.
  intros Hcommand. apply keeps_bind; [by apply keeps_emit|]. intros _.
  destruct command; apply keeps_shift.
Qed.

Lemma keeps_callBatchProcessor id ms processor P rows :
  P (BatchProcessorCall rows) →
  keeps id ms processor P (callBatchProcessor rows : M B _).
Proof.
  intros Hcall h (Hid & Hms & Hprocessor). rewrite callBatchProcessor_run.
  split; [done|]. exists [BatchProcessorCall rows].
  split; [done|]. split; [by constructor|]. simpl. by rewrite Hprocessor.
Qed.

Lemma keeps_weaken id ms processor P Q {A} (m : M B A) :
  (∀ e, P e → Q e) → keeps id ms processor P m → keeps id ms processor Q m.
Proof.
  intros HPQ Hm h Hsettled.
  destruct (Hm h Hsettled) as (? & events & ? & Hall & ?).
  split; [done|]. exists events. split; [done|]. split; [|done].
  by eapply Forall_impl.
Qed.

Lemma keeps_waitLoop id ms processor fuel : ∀ stateResponse,
  keeps id ms processor (pollingEvent id ms) (waitLoop (B:=B) fuel stateResponse).
Proof.
  induction fuel as [|fuel IH]; intros stateResponse; simpl;
    (destruct (isTerminalState _); [apply keeps_ret|]).
  - apply keeps_outOfFuel.
  - apply keeps_getThis. intros self -> ->.
    apply keeps_bind.
    { case_decide; [by apply keeps_emit|apply keeps_ret]. }
    intros _.
    apply keeps_bind; [by apply (keeps_send _ _ _ _ (GetQueryExecutionCommand _))|].
    apply IH.
Qed.

Lemma keeps_waitForSuccessfulResult id ms processor fuel :
  keeps id ms processor (pollingEvent id ms) (waitForSuccessfulResult (B:=B) fuel).
Proof.
  apply keeps_getThis. intros self -> _.
  apply keeps_bind; [by apply (keeps_send _ _ _ _ (GetQueryExecutionCommand _))|].
  intros stateResponse.
  apply keeps_bind; [apply keeps_waitLoop|]. intros final. simpl.
  case_decide; [apply keeps_throw|apply keeps_ret].
Qed.

Lemma keeps_getResults id ms processor token isFirstQuery fieldNames :
  keeps id ms processor (retrievalEvent id)
    (getResults (B:=B)
       {| input_QueryExecutionId := id; input_NextToken := token |}
       isFirstQuery fieldNames).
Proof.
  apply keeps_bind; [by apply (keeps_send _ _ _ _ (GetQueryResultsCommand _))|].
  intros response. case_decide; [apply keeps_throw|]. simpl.
  apply keeps_bind; [|intros; apply keeps_ret].
  unfold liftThrown. destruct (match _ with Some _ => _ | None => _ end);
    [apply keeps_throw|apply keeps_ret].
Qed.

Lemma keeps_batchLoop id ms processor fuel fieldNames : ∀ NextToken,
  keeps id ms processor (retrievalEvent id)
    (batchLoop (B:=B) fuel fieldNames NextToken).
Proof.
  induction fuel as [|fuel IH]; intros [token|]; simpl;
    try apply keeps_ret; try apply keeps_outOfFuel.
  apply keeps_getThis. intros self -> _.
  apply keeps_bind; [apply keeps_getResults|]. intros pageResults.
  apply keeps_bind; [by apply keeps_callBatchProcessor|]. intros _. apply IH.
Qed.

Lemma keeps_getResultsInBatches id ms processor fuel :
  keeps id ms processor (retrievalEvent id) (getResultsInBatches (B:=B) fuel).
Proof.
  apply keeps_getThis. intros self -> _.
  apply keeps_bind; [apply keeps_getResults|]. intros results.
  apply keeps_bind; [by apply keeps_callBatchProcessor|]. intros _.
  apply keeps_batchLoop.
Qed.

Lemma batchesIn_polling id ms (events : list Event) :
  Forall (pollingEvent id ms) events → batchesIn events = [].
Proof.
  induction 1 as [|e events He _ IH]; [done|].
  destruct e as [command| |]; [| |done]; exact IH.
Qed.

End MethodInvariants.

(** ** Invariants of a run *)

Section RunInvariants.

Context {B : Type}.
Implicit Types (h : Heap B) (fuel : nat).

(** An exhausted queue: the call is observed and [send] throws. *)
Lemma send_start_empty h QueryString :
  expectedStartQueries (athenaClient (this h)) = [] →
  send (StartQueryExecutionCommand QueryString) h
  = (Threw (ExpectedMore "expectedStartQueries"),
     updated h (athenaClient (this h)) (QueryExecutionId (this h)) (consumer h)
       [Send (StartQueryExecutionCommand QueryString)]).
Proof.
  intros Hq. unfold send, mbind, M_bind, emit, shift; simpl. rewrite Hq.
  by destruct h as [[] ? ?].
Qed.

Lemma send_status_empty h id :
  expectedWaitForSuccessfulResults (athenaClient (this h)) = [] →
  send (GetQueryExecutionCommand id) h
  = (Threw (ExpectedMore "expectedWaitForSuccessfulResults"),
     updated h (athenaClient (this h)) (QueryExecutionId (this h)) (consumer h)
       [Send (GetQueryExecutionCommand id)]).
Proof.
  intros Hq. unfold send, mbind, M_bind, emit, shift; simpl. rewrite Hq.
  by destruct h as [[] ? ?].
Qed.

Lemma send_results_empty h input :
  expectedGetResults (athenaClient (this h)) = [] →
  send (GetQueryResultsCommand input) h
  = (Threw (ExpectedMore "expectedGetResults"),
     updated h (athenaClient (this h)) (QueryExecutionId (this h)) (consumer h)
       [Send (GetQueryResultsCommand input)]).
Proof.
  intros Hq. unfold send, mbind, M_bind, emit, shift; simpl. rewrite Hq.
  by destruct h as [[] ? ?].
Qed.

(** A fresh runner whose submission finds no answer. *)
Lemma processQuery_unanswered h fuel :
  QueryExecutionId (this h) = None →
  expectedStartQueries (athenaClient (this h)) = [] →
  processQuery fuel h
  = (Threw (ExpectedMore "expectedStartQueries"),
     updated h (athenaClient (this h)) None (consumer h)
       [Send (StartQueryExecutionCommand (query (this h)))]).
Proof.
  intros Hid Hq. unfold processQuery.
  rewrite (bind_returned _ _ h (this h) h) by done.
  rewrite Hid, decide_False by (by intros []).
  erewrite bind_threw; [done|]. unfold startQuery.
  rewrite (bind_returned _ _ h (this h) h) by done.
  erewrite bind_threw; [done|]. by rewrite send_start_empty, Hid.
Qed.

(** What any call of [processQuery] adds to the trace and does to the
    consumer. *)
Lemma processQuery_events h fuel :
  sleepMs (this (processQuery fuel h).2) = sleepMs (this h)
  ∧ batchProcessor (this (processQuery fuel h).2) = batchProcessor (this h)
  ∧ ∃ events,
      trace (processQuery fuel h).2 = trace h ++ events
      ∧ consumer (processQuery fuel h).2
        = deliverAll (batchProcessor (this h)) (batchesIn events) (consumer h)
      ∧ match QueryExecutionId (this h) with
        | Some _ => events = []
        | None =>
            QueryExecutionId (this (processQuery fuel h).2)
            = head (expectedStartQueries (athenaClient (this h)))
                ≫= start_QueryExecutionId
            ∧ ∃ polls pages,
                events = Send (StartQueryExecutionCommand (query (this h)))
                         :: polls ++ pages
                ∧ Forall (pollingEvent
                            (QueryExecutionId (this (processQuery fuel h).2))
                            (sleepMs (this h))) polls
                ∧ Forall (retrievalEvent
                            (QueryExecutionId (this (processQuery fuel h).2))) pages
        end.
Proof.
  destruct (QueryExecutionId (this h)) as [id|] eqn:Hid.
  - rewrite processQuery_used by (by rewrite Hid).
    split; [done|]. split; [done|]. exists []. by rewrite app_nil_r.
  - destruct (expectedStartQueries (athenaClient (this h))) as [|response q] eqn:Hq.
    + rewrite processQuery_unanswered by done.
      split; [done|]. split; [done|]. eexists. split; [done|]. split; [done|].
      split; [done|]. by exists [], [].
    + rewrite (processQuery_submitted _ _ response q) by done. simpl.
      destruct (start_QueryExecutionId response) as [id|] eqn:Hresp; last first.
      { split; [done|]. split; [done|]. eexists. split; [done|]. split; [done|].
        split; [done|]. by exists [], []. }
      set (h1 := updated _ _ _ _ _).
      destruct (keeps_waitForSuccessfulResult (Some id) (sleepMs (this h))
                  (batchProcessor (this h)) fuel h1)
        as (Hsettled & polls & Htrace1 & Hpolls & Hconsumer1); [done|].
      assert (batchesIn polls = []) as Hnone by (by eapply batchesIn_polling).
      rewrite Hnone in Hconsumer1. simpl in Hconsumer1.
      unfold mbind, M_bind.
      destruct (waitForSuccessfulResult fuel h1) as [[[]|e|] h2]; simpl in *.
      * destruct (keeps_getResultsInBatches (Some id) (sleepMs (this h))
                    (batchProcessor (this h)) fuel h2 Hsettled)
          as ((Hid' & Hms & Hprocessor) & pages & Htrace2 & Hpages & Hconsumer2).
        rewrite Hid', Hms, Hprocessor. split; [done|]. split; [done|].
        exists (Send (StartQueryExecutionCommand (query (this h))) :: polls ++ pages).
        rewrite Htrace2, Htrace1, Hconsumer2, Hconsumer1, <-!app_assoc.
        split; [done|]. split.
        { change (batchesIn (Send ?c :: ?l)) with (batchesIn l).
          by rewrite batchesIn_app, Hnone. }
        split; [done|]. by exists polls, pages.
      * destruct Hsettled as (Hid' & Hms & Hprocessor).
        rewrite Hid', Hms, Hprocessor. split; [done|]. split; [done|].
        exists (Send (StartQueryExecutionCommand (query (this h))) :: polls ++ []).
        rewrite Htrace1, Hconsumer1, app_nil_r, <-app_assoc.
        split; [done|]. split.
        { change (batchesIn (Send ?c :: ?l)) with (batchesIn l). by rewrite Hnone. }
        split; [done|]. exists polls, []. by rewrite app_nil_r.
      * destruct Hsettled as (Hid' & Hms & Hprocessor).
        rewrite Hid', Hms, Hprocessor. split; [done|]. split; [done|].
        exists (Send (StartQueryExecutionCommand (query (this h))) :: polls ++ []).
        rewrite Htrace1, Hconsumer1, app_nil_r, <-app_assoc.
        split; [done|]. split.
        { change (batchesIn (Send ?c :: ?l)) with (batchesIn l). by rewrite Hnone. }
        split; [done|]. exists polls, []. by rewrite app_nil_r.
Qed.

(** X5.  A call of [processQuery] on a fresh instance submits this
    instance's query once, as the first thing it does, and never again.
    Whatever the service answers afterwards and however the run ends,
    what follows is a phase of polling and then a phase of retrieval,
    never mixed: status fetches and waits of [sleepMs] milliseconds
    (made only when that is positive) come first, page requests and
    consumer calls come last, and every fetch and request carries the
    handle the submission returned.  A call on a used instance adds
    nothing to the trace. *)
Theorem processQuery_trace h fuel :
  ∃ events,
    trace (processQuery fuel h).2 = trace h ++ events
    ∧ match QueryExecutionId (this h) with
      | Some _ => events = []
      | None =>
          QueryExecutionId (this (processQuery fuel h).2)
          = head (expectedStartQueries (athenaClient (this h)))
              ≫= start_QueryExecutionId
          ∧ ∃ polls pages,
              events = Send (StartQueryExecutionCommand (query (this h)))
                       :: polls ++ pages
              ∧ Forall (pollingEvent
                          (QueryExecutionId (this (processQuery fuel h).2))
                          (sleepMs (this h))) polls
              ∧ Forall (retrievalEvent
                          (QueryExecutionId (this (processQuery fuel h).2))) pages
      end.
Proof.
  destruct (processQuery_events h fuel) as (_ & _ & events & Htrace & _ & Hevents).
  by exists events.
Qed.


End RunInvariants.

(** ** Polling, in general *)

Section PollingInGeneral.

Context {B : Type}.
Implicit Types (h : Heap B) (fuel : nat).

Lemma preserves_bind (I : Heap B → Prop) {A A'} (m : M B A) (f : A → M B A') :
  preserves I m → (∀ a, preserves I (f a)) → preserves I (m ≫= f).
Proof.
  intros Hm Hf h Hh. unfold mbind, M_bind. specialize (Hm h Hh).
  destruct (m h) as [[a|e|] h']; simpl in *; [|done..]. by apply Hf.
Qed.

Lemma preserves_same (I : Heap B → Prop) {A} (m : M B A) :
  (∀ h, (m h).2 = h) → preserves I m.
Proof. intros Hm h Hh. by rewrite Hm. Qed.

Lemma preserves_emit (I : Heap B → Prop) e :
  (∀ h, I h → I (withEvent e h)) → preserves I (emit e).
Proof. intros He h Hh. by apply He. Qed.

Lemma preserves_shift (I : Heap B → Prop) {A} name
    (get : AthenaClient → list A) set :
  (∀ h q, I h → I (withClient (set q (athenaClient (this h))) h)) →
  preserves I (shift name get set).
Proof.
  intros Hset h Hh. unfold shift. destruct (get _); [done|]. by apply Hset.
Qed.

(** Polling leaves the queue of result pages alone. *)
Lemma waitLoop_results_queue pages fuel : ∀ stateResponse,
  preserves (λ h, expectedGetResults (athenaClient (this h)) = pages)
    (waitLoop (B:=B) fuel stateResponse).
Proof.
  induction fuel as [|fuel IH]; intros stateResponse; simpl;
    (destruct (isTerminalState _); [by apply preserves_same|]).
  - by apply preserves_same.
  - apply preserves_bind; [by apply preserves_same|]. intros self.
    apply preserves_bind.
    { case_decide; [by apply preserves_emit|by apply preserves_same]. }
    intros _. apply preserves_bind; [|apply IH].
    apply preserves_bind; [by apply preserves_emit|]. intros _.
    by apply preserves_shift.
Qed.

Lemma waitForSuccessfulResult_results_queue pages fuel :
  preserves (λ h, expectedGetResults (athenaClient (this h)) = pages)
    (waitForSuccessfulResult (B:=B) fuel).
Proof.
  apply preserves_bind; [by apply preserves_same|]. intros self.
  apply preserves_bind.
  { apply preserves_bind; [by apply preserves_emit|]. intros _.
    by apply preserves_shift. }
  intros stateResponse.
  apply preserves_bind; [apply waitLoop_results_queue|]. intros final. simpl.
  case_decide; by apply preserves_same.
Qed.

(** The response on which the loop stops is the one it started from or
    one of those the service had in store. *)
Lemma waitLoop_returns fuel : ∀ stateResponse h final h',
  waitLoop fuel stateResponse h = (Returned final, h') →
  final = stateResponse
  ∨ final ∈ expectedWaitForSuccessfulResults (athenaClient (this h)).
Proof.
  induction fuel as [|fuel IH]; intros stateResponse h final h'; simpl;
    (destruct (isTerminalState _); [intros [= <- _]; by left|]).
  - done.
  - unfold mbind at 1, M_bind, getThis.
    assert (∃ h1, (if decide (0 < sleepMs (this h))%Z
                   then sleep (sleepMs (this h)) else mret ()) h = (Returned (), h1)
                  ∧ expectedWaitForSuccessfulResults (athenaClient (this h1))
                    = expectedWaitForSuccessfulResults (athenaClient (this h)))
      as (h1 & Hwait & Hsame).
    { case_decide; by eexists. }
    rewrite (bind_returned _ _ h () h1) by done. rewrite <-Hsame. cbv beta.
    destruct (expectedWaitForSuccessfulResults (athenaClient (this h1)))
      as [|next q] eqn:Hq.
    + rewrite (bind_threw _ _ h1 _ _ (send_status_empty h1 _ Hq)). done.
    + rewrite (bind_returned _ _ h1 _ _ (send_status h1 _ next q Hq)).
      intros [->|Hin]%IH; right; [by left|by right].
Qed.

Lemma waitForSuccessfulResult_returns h fuel h' :
  waitForSuccessfulResult fuel h = (Returned (), h') →
  Exists (λ response, getState response = Some "SUCCEEDED")
    (expectedWaitForSuccessfulResults (athenaClient (this h))).
Proof.
  unfold waitForSuccessfulResult.
  rewrite (bind_returned _ _ h (this h) h) by done.
  destruct (expectedWaitForSuccessfulResults (athenaClient (this h)))
    as [|first q] eqn:Hq.
  - rewrite (bind_threw _ _ h _ _ (send_status_empty h _ Hq)). done.
  - rewrite (bind_returned _ _ h _ _ (send_status h _ first q Hq)).
    unfold mbind, M_bind.
    destruct (waitLoop fuel first _) as [[final|e|] h1] eqn:Hloop; [|done..].
    case_decide as Hstate; [done|]. intros _.
    apply Exists_exists. exists final. split; [|done].
    apply waitLoop_returns in Hloop as [->|Hin]; [by left|by right].
Qed.

(** X7.  When none of the status responses the service has in store
    reports 'SUCCEEDED', a call of [processQuery] on a fresh instance
    never returns normally, whatever else the responses say and however
    many there are; after the submission it only polls: it requests no
    page, does not call the consumer, and leaves the consumer's state
    and the queued pages as they were. *)
Theorem processQuery_needs_succeeded h fuel :
  QueryExecutionId (this h) = None →
  Forall (λ response, getState response ≠ Some "SUCCEEDED")
    (expectedWaitForSuccessfulResults (athenaClient (this h))) →
  (processQuery fuel h).1 ≠ Returned ()
  ∧ consumer (processQuery fuel h).2 = consumer h
  ∧ expectedGetResults (athenaClient (this (processQuery fuel h).2))
    = expectedGetResults (athenaClient (this h))
  ∧ ∃ events,
      trace (processQuery fuel h).2
      = trace h ++ Send (StartQueryExecutionCommand (query (this h))) :: events
      ∧ Forall (pollingEvent (QueryExecutionId (this (processQuery fuel h).2))
                  (sleepMs (this h))) events.
Proof.
  intros Hid Hnone.
  destruct (expectedStartQueries (athenaClient (this h))) as [|response q] eqn:Hq.
  { rewrite processQuery_unanswered by done. simpl.
    split; [done|]. split; [done|]. split; [done|]. by exists []. }
  rewrite (processQuery_submitted _ _ response q) by done.
  destruct (start_QueryExecutionId response) as [id|] eqn:Hresp; last first.
  { simpl. split; [done|]. split; [done|]. split; [done|]. by exists []. }
  set (h1 := updated _ _ _ _ _).
  destruct (keeps_waitForSuccessfulResult (Some id) (sleepMs (this h))
              (batchProcessor (this h)) fuel h1)
    as ((Hid' & _) & events & Htrace & Hall & Hconsumer); [done|].
  pose proof (waitForSuccessfulResult_results_queue
                (expectedGetResults (athenaClient (this h))) fuel h1 eq_refl)
    as Hpages.
  rewrite (batchesIn_polling _ _ _ Hall) in Hconsumer. simpl in Hconsumer.
  unfold mbind, M_bind.
  destruct (waitForSuccessfulResult fuel h1) as [[[]|e|] h2] eqn:Hwait; simpl in *.
  - apply waitForSuccessfulResult_returns in Hwait.
    apply Exists_exists in Hwait as (r & Hin & Hr).
    rewrite Forall_forall in Hnone. by destruct (Hnone r Hin).
  - split; [done|]. split; [done|]. split; [done|].
    exists events. rewrite Htrace, <-app_assoc, Hid'. by split.
  - split; [done|]. split; [done|]. split; [done|].
    exists events. rewrite Htrace, <-app_assoc, Hid'. by split.
Qed.

End PollingInGeneral.

(** ** The loops end *)

Section Termination.

Context {B : Type}.
Implicit Types (h : Heap B) (fuel : nat).

(** Two sequences that start alike and go on alike where the start
    returns. *)
Lemma bind_congr {A A'} (m : M B A) (f g : A → M B A') h :
  (m h).1 ≠ OutOfFuel →
  (∀ a h', m h = (Returned a, h') → f a h' = g a h' ∧ (f a h').1 ≠ OutOfFuel) →
  (m ≫= f) h = (m ≫= g) h ∧ ((m ≫= f) h).1 ≠ OutOfFuel.
Proof.
  unfold mbind, M_bind. intros Hm Hfg.
  destruct (m h) as [[a|e|] h']; [by apply Hfg|done|done].
Qed.

Lemma send_not_outOfFuel command h : (send (B:=B) command h).1 ≠ OutOfFuel.
Proof.
  unfold send, mbind, M_bind, emit, shift; simpl.
  destruct command; simpl; by destruct (_ (athenaClient (this h))).
Qed.

Lemma send_status_returned h id response h' :
  send (GetQueryExecutionCommand id) h = (Returned response, h') →
  expectedWaitForSuccessfulResults (athenaClient (this h))
  = response :: expectedWaitForSuccessfulResults (athenaClient (this h')).
Proof.
  destruct (expectedWaitForSuccessfulResults (athenaClient (this h)))
    as [|first q] eqn:Hq.
  - by rewrite send_status_empty.
  - rewrite (send_status _ _ first q) by done. by intros [= <- <-].
Qed.

Lemma getResults_returned h input isFirstQuery fieldNames results h' :
  getResults input isFirstQuery fieldNames h = (Returned results, h') →
  ∃ page, expectedGetResults (athenaClient (this h))
          = page :: expectedGetResults (athenaClient (this h')).
Proof.
  destruct (expectedGetResults (athenaClient (this h))) as [|page q] eqn:Hq.
  - unfold getResults.
    by rewrite (bind_threw _ _ h _ _ (send_results_empty h _ Hq)).
  - destruct (decide (statusOk page)) as [Hok|Hbad].
    + rewrite (getResults_run _ _ _ _ page q) by done. cbv zeta.
      destruct (fromRowsToJsonValues _ _); [done|].
      intros [= _ <-]. by exists page.
    + by rewrite (getResults_failed _ _ _ _ page q).
Qed.

Lemma getResults_not_outOfFuel h input isFirstQuery fieldNames :
  (getResults input isFirstQuery fieldNames h).1 ≠ OutOfFuel.
Proof.
  destruct (expectedGetResults (athenaClient (this h))) as [|page q] eqn:Hq.
  - unfold getResults.
    by rewrite (bind_threw _ _ h _ _ (send_results_empty h _ Hq)).
  - destruct (decide (statusOk page)) as [Hok|Hbad].
    + rewrite (getResults_run _ _ _ _ page q) by done. cbv zeta.
      by destruct (fromRowsToJsonValues _ _).
    + by rewrite (getResults_failed _ _ _ _ page q).
Qed.

Lemma waitLoop_fuel fuel : ∀ fuel' stateResponse h,
  length (expectedWaitForSuccessfulResults (athenaClient (this h))) < fuel →
  length (expectedWaitForSuccessfulResults (athenaClient (this h))) < fuel' →
  waitLoop fuel stateResponse h = waitLoop fuel' stateResponse h
  ∧ (waitLoop fuel stateResponse h).1 ≠ OutOfFuel.
Proof.
  induction fuel as [|fuel IH]; intros fuel' stateResponse h Hfuel Hfuel'; [lia|].
  destruct fuel' as [|fuel']; [lia|]. simpl.
  destruct (isTerminalState _); [done|].
  apply bind_congr; [done|]. intros self h0 [= <- <-].
  apply bind_congr; [by case_decide|]. intros [] h1 Hwait.
  assert (expectedWaitForSuccessfulResults (athenaClient (this h1))
          = expectedWaitForSuccessfulResults (athenaClient (this h))) as Hsame.
  { case_decide; by injection Hwait as <-. }
  apply bind_congr; [apply (send_not_outOfFuel (GetQueryExecutionCommand _))|].
  intros next h2 Hsend.
  apply send_status_returned in Hsend. rewrite Hsame in Hsend.
  rewrite Hsend in Hfuel, Hfuel'. simpl in Hfuel, Hfuel'.
  apply IH; lia.
Qed.

Lemma waitForSuccessfulResult_fuel fuel fuel' h :
  length (expectedWaitForSuccessfulResults (athenaClient (this h))) ≤ fuel →
  length (expectedWaitForSuccessfulResults (athenaClient (this h))) ≤ fuel' →
  waitForSuccessfulResult fuel h = waitForSuccessfulResult fuel' h
  ∧ (waitForSuccessfulResult fuel h).1 ≠ OutOfFuel.
Proof.
  intros Hfuel Hfuel'. unfold waitForSuccessfulResult.
  apply bind_congr; [done|]. intros self h0 [= <- <-].
  apply bind_congr; [apply (send_not_outOfFuel (GetQueryExecutionCommand _))|].
  intros first h1 Hsend.
  apply send_status_returned in Hsend.
  rewrite Hsend in Hfuel, Hfuel'. simpl in Hfuel, Hfuel'.
  destruct (waitLoop_fuel fuel fuel' first h1) as [Heq Hends]; [lia..|].
  unfold mbind, M_bind. rewrite <-Heq.
  destruct (waitLoop fuel first h1) as [[final|e|] h2]; [|done..].
  simpl. by case_decide.
Qed.

Lemma batchLoop_fuel fieldNames fuel : ∀ fuel' NextToken h,
  length (expectedGetResults (athenaClient (this h))) < fuel →
  length (expectedGetResults (athenaClient (this h))) < fuel' →
  batchLoop fuel fieldNames NextToken h = batchLoop fuel' fieldNames NextToken h
  ∧ (batchLoop fuel fieldNames NextToken h).1 ≠ OutOfFuel.
Proof.
  induction fuel as [|fuel IH]; intros fuel' NextToken h Hfuel Hfuel'; [lia|].
  destruct fuel' as [|fuel']; [lia|].
  destruct NextToken as [token|]; [|done]. simpl.
  apply bind_congr; [done|]. intros self h0 [= <- <-].
  apply bind_congr; [apply getResults_not_outOfFuel|]. intros pageResults h1 Hpage.
  apply getResults_returned in Hpage as [page Hpage].
  rewrite Hpage in Hfuel, Hfuel'. simpl in Hfuel, Hfuel'.
  apply bind_congr.
  { rewrite callBatchProcessor_run. simpl. by destruct (_.1). }
  intros [] h2. rewrite callBatchProcessor_run. intros [= _ <-].
  apply IH; simpl; lia.
Qed.

Lemma getResultsInBatches_fuel fuel fuel' h :
  length (expectedGetResults (athenaClient (this h))) ≤ fuel →
  length (expectedGetResults (athenaClient (this h))) ≤ fuel' →
  getResultsInBatches fuel h = getResultsInBatches fuel' h
  ∧ (getResultsInBatches fuel h).1 ≠ OutOfFuel.
Proof.
  intros Hfuel Hfuel'. unfold getResultsInBatches.
  apply bind_congr; [done|]. intros self h0 [= <- <-].
  apply bind_congr; [apply getResults_not_outOfFuel|]. intros results h1 Hpage.
  apply getResults_returned in Hpage as [page Hpage].
  rewrite Hpage in Hfuel, Hfuel'. simpl in Hfuel, Hfuel'.
  apply bind_congr.
  { rewrite callBatchProcessor_run. simpl. by destruct (_.1). }
  intros [] h2. rewrite callBatchProcessor_run. intros [= _ <-].
  apply batchLoop_fuel; simpl; lia.
Qed.

(** X8.  Against a client with finitely many answers in store every run
    ends: each turn of either loop takes one answer from its queue, so a
    bound on the turns that is at least the number of status responses
    and the number of pages in store never cuts a loop short, and the
    outcome and the final state do not depend on the bound chosen. *)
Theorem processQuery_fuel h fuel fuel' :
  length (expectedWaitForSuccessfulResults (athenaClient (this h))) ≤ fuel →
  length (expectedGetResults (athenaClient (this h))) ≤ fuel →
  length (expectedWaitForSuccessfulResults (athenaClient (this h))) ≤ fuel' →
  length (expectedGetResults (athenaClient (this h))) ≤ fuel' →
  (processQuery fuel h).1 ≠ OutOfFuel
  ∧ processQuery fuel h = processQuery fuel' h.
Proof.
  intros Hstatus Hpages Hstatus' Hpages'.
  destruct (QueryExecutionId (this h)) as [id|] eqn:Hid.
  { rewrite !processQuery_used by (by rewrite Hid). done. }
  destruct (expectedStartQueries (athenaClient (this h))) as [|response q] eqn:Hq.
  { by rewrite !processQuery_unanswered. }
  rewrite !(processQuery_submitted _ _ response q) by done.
  destruct (start_QueryExecutionId response) as [id|]; [|done].
  set (h1 := updated _ _ _ _ _).
  cut ((waitForSuccessfulResult fuel;; getResultsInBatches fuel) h1
       = (waitForSuccessfulResult fuel';; getResultsInBatches fuel') h1
       ∧ ((waitForSuccessfulResult fuel;; getResultsInBatches fuel) h1).1 ≠ OutOfFuel).
  { by intros [-> ?]. }
  destruct (waitForSuccessfulResult_fuel fuel fuel' h1) as [Heq Hends]; [done..|].
  unfold mbind, M_bind. rewrite <-Heq.
  pose proof (waitForSuccessfulResult_results_queue
                (expectedGetResults (athenaClient (this h))) fuel h1 eq_refl)
    as Hsame.
  destruct (waitForSuccessfulResult fuel h1) as [[[]|e|] h2]; [|done..].
  simpl in Hsame.
  apply getResultsInBatches_fuel; by rewrite Hsame.
Qed.

End Termination.

(** ** Edges of a run *)

Section Edges.

Context {B : Type}.
Implicit Types (h : Heap B) (fuel : nat).

Lemma fromRowsToJsonValues_long_row rows fieldNames :
  Exists (λ row, length fieldNames < rowLength row) rows →
  fromRowsToJsonValues rows fieldNames = inl HeaderRowIsNotLongEnough.
Proof.
  induction 1 as [row rows Hlong|row rows _ IH]; simpl.
  - assert (rowToJsonValue fieldNames row = inl HeaderRowIsNotLongEnough) as ->; [|done].
    unfold rowToJsonValue, rowLength in *.
    destruct (Data row) as [data|]; simpl in *; [|lia].
    apply forEachData_inl_iff. exists (length fieldNames). split; [done|].
    left. by apply lookup_ge_None.
  - destruct (rowToJsonValue_cases fieldNames row) as [[result ->]| ->]; [|done].
    by rewrite IH.
Qed.

(** X9.  In a run that reached retrieval, a page fetched with status
    'ok' in which some data row has more values than the header of the
    first page has names ends the run with 'Header row is not long
    enough.': the consumer is not called for that page, not even with
    the rows that fit, and no further page is requested; the batches of
    the pages before it stay delivered. *)
Theorem processQuery_conversion_failure h fuel id pending delivered batches page rest :
  reachesRetrieval h id pending →
  length pending ≤ fuel →
  expectedGetResults (athenaClient (this h)) = delivered ++ page :: rest →
  Forall statusOk delivered →
  Forall (λ page, is_Some (output_NextToken page)) delivered →
  converted (firstPageFieldNames delivered) true delivered batches →
  accepts (batchProcessor (this h)) batches (consumer h) →
  length delivered ≤ fuel →
  statusOk page →
  Exists (λ row, length (firstPageFieldNames (delivered ++ [page])) < rowLength row)
    (dataRows (bool_decide (delivered = [])) page) →
  processQuery fuel h
  = (Threw HeaderRowIsNotLongEnough,
     updated (atRetrieval h id pending)
       (setGetResults rest (athenaClient (this (atRetrieval h id pending))))
       (Some id)
       (deliverAll (batchProcessor (this h)) batches (consumer h))
       (pageEvents (Some id) None delivered batches
        ++ [Send (GetQueryResultsCommand
                    {| input_QueryExecutionId := Some id;
                       input_NextToken := lastToken None delivered |})])).
Proof.
  intros Hreach Hpoll Hq Hok Htok Hconv Hacc Hfuel Hpage Hlong.
  rewrite (processQuery_retrieval _ _ id pending) by done.
  destruct (getResultsInBatches_reaches (atRetrieval h id pending) fuel
              delivered batches page rest)
    as (h' & k & -> & ->); [done..|].
  assert (firstPageFieldNames (delivered ++ [page])
          = if bool_decide (delivered = [])
            then headerFieldNames (output_ResultSet page ≫= Rows)
            else firstPageFieldNames delivered) as Hnames.
  { by destruct delivered. }
  erewrite bind_threw; last first.
  { rewrite (getResults_run _ _ _ _ page rest) by done.
    cbv beta iota zeta. rewrite <-Hnames.
    by rewrite (fromRowsToJsonValues_long_row _ _ Hlong). }
  by rewrite !updated_updated.
Qed.

(** X10.  A run whose submission is answered without a handle, or not
    answered at all, leaves the instance as unused as it was: the handle
    is still [undefined], nothing but the submission is on the trace,
    the consumer and the other queues are untouched; the next
    [processQuery] on it is again a first submission. *)
Theorem processQuery_unrecorded h fuel :
  QueryExecutionId (this h) = None →
  head (expectedStartQueries (athenaClient (this h))) ≫= start_QueryExecutionId = None →
  (∃ e, (processQuery fuel h).1 = Threw e)
  ∧ (processQuery fuel h).2
    = updated h
        (setStartQueries (drop 1 (expectedStartQueries (athenaClient (this h))))
           (athenaClient (this h)))
        None (consumer h)
        [Send (StartQueryExecutionCommand (query (this h)))]
  ∧ ∀ fuel',
      ∃ events,
        trace (processQuery fuel' (processQuery fuel h).2).2
        = trace h ++ Send (StartQueryExecutionCommand (query (this h)))
                  :: Send (StartQueryExecutionCommand (query (this h))) :: events.
Proof.
  intros Hid Hnone.
  assert ((∃ e, (processQuery fuel h).1 = Threw e)
          ∧ (processQuery fuel h).2
            = updated h
                (setStartQueries (drop 1 (expectedStartQueries (athenaClient (this h))))
                   (athenaClient (this h)))
                None (consumer h)
                [Send (StartQueryExecutionCommand (query (this h)))]) as [Hthrew Hheap].
  { destruct (expectedStartQueries (athenaClient (this h))) as [|response q] eqn:Hq.
    - rewrite processQuery_unanswered by done. simpl. split; [by eexists|].
      by rewrite <-Hq, setStartQueries_same.
    - rewrite (processQuery_submitted _ _ response q) by done.
      simpl in Hnone. rewrite Hnone. simpl. split; [by eexists|].
      by rewrite drop_0. }
  split; [done|]. split; [done|]. intros fuel'.
  assert (QueryExecutionId (this (processQuery fuel h).2) = None) as Hid'.
  { by rewrite Hheap. }
  assert (query (this (processQuery fuel h).2) = query (this h)) as Hquery.
  { by rewrite Hheap. }
  assert (trace (processQuery fuel h).2
          = trace h ++ [Send (StartQueryExecutionCommand (query (this h)))])
    as Htrace1.
  { by rewrite Hheap. }
  destruct (processQuery_events (processQuery fuel h).2 fuel')
    as (_ & _ & events & Htrace & _ & Hevents).
  rewrite Hid' in Hevents. destruct Hevents as (_ & polls & pages & -> & _).
  exists (polls ++ pages). by rewrite Htrace, Htrace1, Hquery, <-app_assoc.
Qed.

(** X11.  A status response without a state (no [QueryExecution], no
    [Status] or no [State]) counts as terminal: polling stops on it at
    once, without waiting, and fails with the error whose message reads
    'Unsupported response state, undefined, ...'. *)
Theorem waitForSuccessfulResult_absent_state h fuel response rest :
  expectedWaitForSuccessfulResults (athenaClient (this h)) = response :: rest →
  getState response = None →
  waitForSuccessfulResult fuel h
  = (Threw (UnsupportedResponseState None),
     updated h (setWaitForSuccessfulResults rest (athenaClient (this h)))
       (QueryExecutionId (this h)) (consumer h)
       [Send (GetQueryExecutionCommand (QueryExecutionId (this h)))])
  ∧ unsupportedResponseStateMessage (getState response)
    = "Unsupported response state, undefined, stateResponse=[object Object]".
Proof.
  intros Hq Hstate.
  rewrite (waitForSuccessfulResult_run h fuel [] response rest);
    [|done|done| |simpl; lia].
  - by rewrite Hstate.
  - split; by rewrite Hstate.
Qed.

(** The service has only QUEUED and RUNNING answers in store: the loop
    takes them all and the next fetch finds none. *)
Lemma waitLoop_exhausted pending : ∀ h fuel current,
  expectedWaitForSuccessfulResults (athenaClient (this h)) = pending →
  Forall pendingState (current :: pending) →
  length pending < fuel →
  waitLoop fuel current h
  = (Threw (ExpectedMore "expectedWaitForSuccessfulResults"),
     updated h (setWaitForSuccessfulResults [] (athenaClient (this h)))
       (QueryExecutionId (this h)) (consumer h)
       (repollEvents (QueryExecutionId (this h)) (sleepMs (this h))
          (S (length pending)))).
Proof.
  induction pending as [|next pending IH]; intros h fuel current Hq Hpend Hfuel;
    (destruct fuel as [|fuel]; [simpl in Hfuel; lia|]);
    apply Forall_cons in Hpend as [Hcurrent Hpend];
    simpl; rewrite isTerminalState_false by done;
    rewrite (bind_returned _ _ h (this h) h) by done;
    set (wait := if decide (0 < sleepMs (this h))%Z
                 then [Sleep (sleepMs (this h))] else []);
    set (h1 := updated h (athenaClient (this h)) (QueryExecutionId (this h))
                 (consumer h) wait);
    (rewrite (bind_returned _ _ h () h1); last first;
     [subst h1 wait; case_decide;
      [unfold sleep, emit, withEvent, updated; by destruct h as [[] ? ?]
      |by rewrite updated_same]|]).
  - rewrite (bind_threw _ _ h1 _ _ (send_status_empty h1 _ Hq)).
    subst h1. simpl. rewrite updated_updated.
    by rewrite <-Hq, setWaitForSuccessfulResults_same.
  - rewrite (bind_returned _ _ h1 _ _ (send_status h1 _ next pending Hq)).
    rewrite (IH _ fuel next); [|done|done|simpl in Hfuel; lia].
    subst h1. simpl. by rewrite !updated_updated.
Qed.

(** X12.  When every status response the service has in store says
    QUEUED or RUNNING, the run fetches the status once per response,
    waiting before each re-fetch, and fails on the fetch that finds no
    response left; nothing is requested from the results and the
    consumer is not called. *)
Theorem processQuery_never_terminal h fuel response q id :
  QueryExecutionId (this h) = None →
  expectedStartQueries (athenaClient (this h)) = response :: q →
  start_QueryExecutionId response = Some id →
  Forall pendingState (expectedWaitForSuccessfulResults (athenaClient (this h))) →
  length (expectedWaitForSuccessfulResults (athenaClient (this h))) ≤ fuel →
  processQuery fuel h
  = (Threw (ExpectedMore "expectedWaitForSuccessfulResults"),
     updated h
       (setWaitForSuccessfulResults [] (setStartQueries q (athenaClient (this h))))
       (Some id) (consumer h)
       (Send (StartQueryExecutionCommand (query (this h)))
        :: Send (GetQueryExecutionCommand (Some id))
        :: repollEvents (Some id) (sleepMs (this h))
             (length (expectedWaitForSuccessfulResults (athenaClient (this h)))))).
Proof.
  intros Hid Hq Hresp Hpend Hfuel.
  rewrite (processQuery_submitted _ _ response q), Hresp by done.
  set (h1 := updated _ _ _ _ _).
  erewrite bind_threw; [done|]. unfold waitForSuccessfulResult.
  rewrite (bind_returned _ _ h1 (this h1) h1) by done.
  destruct (expectedWaitForSuccessfulResults (athenaClient (this h)))
    as [|first pending] eqn:Hstatus.
  - rewrite (bind_threw _ _ h1 _ _ (send_status_empty h1 _ Hstatus)).
    subst h1. simpl. rewrite updated_updated. simpl.
    assert (setWaitForSuccessfulResults [] (setStartQueries q (athenaClient (this h)))
            = setStartQueries q (athenaClient (this h))) as ->; [|done].
    destruct (athenaClient (this h)) as [starts statuses pages].
    simpl in Hstatus. by subst.
  - rewrite (bind_returned _ _ h1 _ _ (send_status h1 _ first pending Hstatus)).
    erewrite bind_threw; last first.
    { apply (waitLoop_exhausted pending); [done|done|simpl in Hfuel; simpl; lia]. }
    subst h1. simpl. by rewrite !updated_updated.
Qed.

Lemma headerFieldNames_nonempty response :
  Forall (λ cell, VarCharValue cell ≠ Some EmptyString) (headerCells response) →
  Forall (λ name, name ≠ EmptyString)
    (headerFieldNames (output_ResultSet response ≫= Rows)).
Proof.
  rewrite headerFieldNames_cells, !Forall_lookup. intros Hcells i name.
  rewrite list_lookup_imap.
  destruct (headerCells response !! i) as [cell|] eqn:Hcell; [|done].
  intros [= <-]. apply headerFieldName_nonempty. by eapply Hcells.
Qed.

(** X13.  A first page fetched with status 'ok' whose header has no
    empty text and whose data rows have at most as many values as the
    header has cells always converts: [getResults] returns one record
    per data row, together with the page's token and the names of the
    header. *)
Theorem getResults_first_page_fits h input ignored page q :
  expectedGetResults (athenaClient (this h)) = page :: q →
  statusOk page →
  Forall (λ cell, VarCharValue cell ≠ Some EmptyString) (headerCells page) →
  Forall (λ row, rowLength row ≤ length (headerCells page)) (dataRows true page) →
  ∃ records,
    getResults input true ignored h
    = (Returned {| result_Data := records;
                   result_NextToken := output_NextToken page;
                   result_fieldNames :=
                     headerFieldNames (output_ResultSet page ≫= Rows) |},
       updated h (setGetResults q (athenaClient (this h)))
         (QueryExecutionId (this h)) (consumer h)
         [Send (GetQueryResultsCommand input)])
    ∧ length records = length (pageRows page) - 1.
Proof.
  intros Hq Hok Hheader Hrows.
  destruct (fromRowsToJsonValues_fits (dataRows true page)
              (headerFieldNames (output_ResultSet page ≫= Rows)))
    as (records & Hrun & Hlen).
  - by apply headerFieldNames_nonempty.
  - by rewrite headerFieldNames_cells, length_imap.
  - exists records. rewrite (getResults_run _ _ _ _ page q) by done.
    cbv beta iota zeta. rewrite Hrun. split; [done|].
    rewrite Hlen. unfold dataRows. by rewrite length_drop.
Qed.

End Edges.

(** ** The further scenarios, run *)

Section FurtherScenarios.


Lemma rowToJsonValue_anonymous_header_witness :
  ∃ result,
    rowToJsonValue ["col0"; "col1"] (rowOf ["John"; "Smith"]) = inr result
    ∧ size result = 2
    ∧ result !! "col1" = Some (Some "Smith").
Proof.
  destruct (rowToJsonValue_anonymous_header
              [ {| VarCharValue := None |}; {| VarCharValue := None |} ] []
              (rowOf ["John"; "Smith"]))
    as (result & Hrun & Hsize & Hget).
  - repeat constructor.
  - unfold rowLength. simpl. lia.
  - exists result. split; [exact Hrun|]. split; [exact Hsize|].
    exact (Hget 1 (cell "Smith") eq_refl).
Defined.

Lemma processQuery_needs_succeeded_witness :
  (processQuery 5 (heapOf failing pushAll [])).1 ≠ Returned ()
  ∧ consumer (processQuery 5 (heapOf failing pushAll [])).2 = []
  ∧ expectedGetResults (athenaClient (this (processQuery 5 (heapOf failing pushAll [])).2))
    = [page3].
Proof.
  destruct (processQuery_needs_succeeded (heapOf failing pushAll []) 5 eq_refl)
    as (Hnot & Hconsumer & Hpages & _).
  - by_computation.
  - split; [exact Hnot|]. split; [exact Hconsumer|exact Hpages].
Defined.

Lemma processQuery_fuel_witness :
  (processQuery 3 (heapOf multipleCalls pushAll [])).1 ≠ OutOfFuel
  ∧ processQuery 3 (heapOf multipleCalls pushAll [])
    = processQuery 7 (heapOf multipleCalls pushAll []).
Proof.
  apply (processQuery_fuel (heapOf multipleCalls pushAll []) 3 7); simpl; lia.
Defined.

Lemma processQuery_conversion_failure_witness :
  processQuery 5 (heapOf secondPageTooLong pushAll [])
  = (Threw HeaderRowIsNotLongEnough,
     updated (heapOf secondPageTooLong pushAll [])
       {| expectedStartQueries := [];
          expectedWaitForSuccessfulResults := [];
          expectedGetResults := [page3] |}
       (Some "abc-xyz")
       [person "John" "Smith"]
       [Send (StartQueryExecutionCommand testQuery);
        Send (GetQueryExecutionCommand (Some "abc-xyz"));
        Send (GetQueryResultsCommand firstRequest);
        BatchProcessorCall [person "John" "Smith"];
        Send (GetQueryResultsCommand {| input_QueryExecutionId := Some "abc-xyz";
                                        input_NextToken := Some "NextResult1" |})]).
Proof.
  refine (processQuery_conversion_failure
            (heapOf secondPageTooLong pushAll []) 5 "abc-xyz" []
            [page1] [[person "John" "Smith"]] longRowPage [page3]
            _ _ eq_refl _ _ _ _ _ eq_refl _).
  - repeat split. constructor.
  - simpl. lia.
  - repeat constructor.
  - repeat constructor. by eexists.
  - simpl. repeat split; vm_compute; reflexivity.
  - simpl. repeat split.
  - simpl. lia.
  - apply Exists_cons_tl, Exists_cons_hd. vm_compute. lia.
Defined.

Lemma processQuery_unrecorded_witness :
  (processQuery 5 (heapOf noHandleThenHandle pushAll [])).2
  = updated (heapOf noHandleThenHandle pushAll [])
      (setStartQueries [started (Some "abc-xyz")] noHandleThenHandle)
      None [] [Send (StartQueryExecutionCommand testQuery)].
Proof.
  exact (proj1 (proj2 (processQuery_unrecorded
                         (heapOf noHandleThenHandle pushAll []) 5 eq_refl eq_refl))).
Defined.

Lemma waitForSuccessfulResult_absent_state_witness :
  waitForSuccessfulResult 0 (submitted (heapOf stateless pushAll []) "abc-xyz")
  = (Threw (UnsupportedResponseState None),
     updated (submitted (heapOf stateless pushAll []) "abc-xyz")
       (setWaitForSuccessfulResults [] stateless) (Some "abc-xyz") []
       [Send (GetQueryExecutionCommand (Some "abc-xyz"))]).
Proof.
  exact (proj1 (waitForSuccessfulResult_absent_state
                  (submitted (heapOf stateless pushAll []) "abc-xyz") 0
                  {| output_QueryExecution := None |} [] eq_refl eq_refl)).
Defined.

Lemma processQuery_never_terminal_witness :
  processQuery 5 (heapOf neverTerminal pushAll [])
  = (Threw (ExpectedMore "expectedWaitForSuccessfulResults"),
     updated (heapOf neverTerminal pushAll [])
       {| expectedStartQueries := [];
          expectedWaitForSuccessfulResults := [];
          expectedGetResults := [page3] |}
       (Some "abc-xyz") []
       [Send (StartQueryExecutionCommand testQuery);
        Send (GetQueryExecutionCommand (Some "abc-xyz"));
        Sleep 1;
        Send (GetQueryExecutionCommand (Some "abc-xyz"));
        Sleep 1;
        Send (GetQueryExecutionCommand (Some "abc-xyz"))]).
Proof.
  refine (processQuery_never_terminal (heapOf neverTerminal pushAll []) 5
            (started (Some "abc-xyz")) [] "abc-xyz" eq_refl eq_refl eq_refl _ _).
  - constructor; [by left|]. constructor; [by right|]. constructor.
  - simpl. lia.
Defined.

Lemma getResults_first_page_fits_witness :
  ∃ records,
    getResults firstRequest true []
      (submitted (heapOf multipleCalls pushAll []) "abc-xyz")
    = (Returned {| result_Data := records;
                   result_NextToken := Some "NextResult1";
                   result_fieldNames := ["first_name"; "last_name"] |},
       updated (submitted (heapOf multipleCalls pushAll []) "abc-xyz")
         (setGetResults [page2; page3] multipleCalls) (Some "abc-xyz") []
         [Send (GetQueryResultsCommand firstRequest)])
    ∧ length records = 1.
Proof.
  refine (getResults_first_page_fits
            (submitted (heapOf multipleCalls pushAll []) "abc-xyz")
            firstRequest [] page1 [page2; page3] eq_refl eq_refl _ _).
  - by_computation.
  - by_computation.
Defined.

End FurtherScenarios.
